(** * Light TikTok OAuth2 backend: a shallow embedding of [index.js]

    The server is a handful of Express handlers around one helper,
    [getValidAccessToken].  The handlers are embedded as functions in a
    small state-and-exception monad over the process state (the pending
    PKCE verifier, the token file, the temporary upload files, the clock,
    the random source and the log of outbound HTTP calls).  JavaScript
    values are embedded as [jsval]; numbers are the integers (every number
    the handlers compute is a byte count or a millisecond timestamp) plus
    [JNaN]. *)

From Stdlib Require Import ZArith QArith Qround String Ascii.
From Stdlib Require Import Decimal DecimalFacts DecimalString DecimalPos DecimalZ.
From Stdlib Require Import Lia List.
From stdpp Require Import gmap strings.
Import ListNotations.

Local Open Scope string_scope.

(** stdpp freezes [String.append] under [simpl]; the handlers build their
    messages by appending to literals, which should reduce. *)
Arguments String.append !s1 s2 : simpl nomatch.

(** ** JavaScript values *)

Module Js.

#[warnings="-register-all"]
Inductive jsval : Type :=
| JUndefined
| JNull
| JBool (b : bool)
| JNum (z : Z)
| JNaN
| JStr (s : string)
| JObj (fields : list (string * jsval)).

(** What [throw] carries.  [response_data] is [err.response?.data]: it is
    [None] for a plain [Error] and for a transport failure, and the body of
    the platform's reply for an axios error raised on a non-2xx status. *)
Record JsError := mkError {
  message : string;
  response_data : option jsval
}.

Definition Error (msg : string) : JsError := mkError msg None.

Inductive Outcome (A : Type) : Type :=
| Ok (a : A)
| Throw (e : JsError).
Arguments Ok {A} a.
Arguments Throw {A} e.

(** [!!v] *)
Definition truthy (v : jsval) : bool :=
  match v with
  | JUndefined | JNull | JNaN => false
  | JBool b => b
  | JNum z => negb (z =? 0)%Z
  | JStr s => negb (String.eqb s EmptyString)
  | JObj _ => true
  end.

(** [a || b] *)
Definition js_or (a b : jsval) : jsval := if truthy a then a else b.

Fixpoint obj_get (fs : list (string * jsval)) (k : string) : jsval :=
  match fs with
  | [] => JUndefined
  | (k', v) :: r => if String.eqb k' k then v else obj_get r k
  end.

(** [o[k] = v] on an ordinary object: an existing key keeps its place. *)
Fixpoint obj_set (fs : list (string * jsval)) (k : string) (v : jsval)
  : list (string * jsval) :=
  match fs with
  | [] => [(k, v)]
  | (k', v') :: r =>
      if String.eqb k' k then (k, v) :: r else (k', v') :: obj_set r k v
  end.

(** [v.k]: a [TypeError] on [undefined] and [null], the own property of an
    object, [undefined] on the other primitives (none of the properties the
    handlers read is a built-in one of strings, numbers or booleans). *)
Definition get_prop (v : jsval) (k : string) : Outcome jsval :=
  match v with
  | JUndefined =>
      Throw (Error ("Cannot read properties of undefined (reading '" ++ k ++ "')"))
  | JNull =>
      Throw (Error ("Cannot read properties of null (reading '" ++ k ++ "')"))
  | JObj fs => Ok (obj_get fs k)
  | _ => Ok JUndefined
  end.

(** Decimal rendering of an integer, as [String(n)] gives it. *)
Definition string_of_Z (z : Z) : string := NilZero.string_of_int (Z.to_int z).

(** [String(v)], the conversion a template literal applies. *)
Definition to_string (v : jsval) : string :=
  match v with
  | JUndefined => "undefined"
  | JNull => "null"
  | JBool true => "true"
  | JBool false => "false"
  | JNum z => string_of_Z z
  | JNaN => "NaN"
  | JStr s => s
  | JObj _ => "[object Object]"
  end.

Section Numbers.
(** [Number(s)] on a string is the language's numeric-literal grammar; it
    is taken as given ([None] is [NaN]). *)
Variable StringToNumber : string -> option Z.

Definition to_number (v : jsval) : option Z :=
  match v with
  | JUndefined => None
  | JNull => Some 0%Z
  | JBool true => Some 1%Z
  | JBool false => Some 0%Z
  | JNum z => Some z
  | JNaN => None
  | JStr s => StringToNumber s
  | JObj _ => None
  end.

Definition of_number (n : option Z) : jsval :=
  match n with Some z => JNum z | None => JNaN end.

Definition arith (op : Z -> Z -> Z) (a b : jsval) : jsval :=
  match to_number a, to_number b with
  | Some x, Some y => JNum (op x y)
  | _, _ => JNaN
  end.

(** [a * b], [a - b] and, on two numbers, [a + b], computed on the
    integers.  The language computes them on binary64 numbers, which gives
    the same result as long as the operands and the exact result are safe
    integers; a property that names a computed value carries that
    bound. *)
Definition js_mul := arith Z.mul.
Definition js_sub := arith Z.sub.
Definition js_add_num := arith Z.add.

(** [Number.MAX_SAFE_INTEGER] and [Number.isSafeInteger] on an integer:
    up to 2^53 - 1 in absolute value every integer is a binary64 number. *)
Definition MAX_SAFE_INTEGER : Z := 2 ^ 53 - 1.
Definition Number_isSafeInteger (z : Z) : bool := (Z.abs z <=? MAX_SAFE_INTEGER)%Z.

(** [a < b] on a number and anything else: false as soon as one side is
    [NaN]. *)
Definition js_lt (a b : jsval) : bool :=
  match to_number a, to_number b with
  | Some x, Some y => (x <? y)%Z
  | _, _ => false
  end.
End Numbers.

(** [Math.ceil(a / b)] on two byte counts.  [0 / 0] is [NaN]; a positive
    count over [0] would be [Infinity], which the handlers never reach (their
    divisor is [0] only when the dividend is).  Below 2^53 the quotient of
    the doubles rounds to the same ceiling as the exact one. *)
Definition Math_ceil_div (a b : Z) : jsval :=
  if (b =? 0)%Z then JNaN else JNum (- ((- a) / b))%Z.

End Js.
Export Js.

(** ** JSON text

    [JSON.stringify] and [JSON.parse] on the values above: no arrays, no
    fractions or exponents, no insignificant white space.  Strings are the
    UTF-8 bytes of the JavaScript string. *)

Module Json.

Definition dquote : ascii := Eval cbv in ascii_of_nat 34.
Definition bslash : ascii := Eval cbv in ascii_of_nat 92.

Definition str1 (c : ascii) : string := String c EmptyString.

Definition hexdigit (n : N) : ascii :=
  match String.get (N.to_nat n) "0123456789abcdef" with
  | Some c => c
  | None => "0"%char
  end.

(** One character of [QuoteJSONString]. *)
Definition quote_char (c : ascii) : string :=
  if Ascii.eqb c dquote then String bslash (str1 dquote)
  else if Ascii.eqb c bslash then String bslash (str1 bslash)
  else
    match N_of_ascii c with
    | 8%N => String bslash "b"
    | 9%N => String bslash "t"
    | 10%N => String bslash "n"
    | 12%N => String bslash "f"
    | 13%N => String bslash "r"
    | n =>
        if (n <? 32)%N
        then String bslash ("u00" ++ String (hexdigit (n / 16)) (str1 (hexdigit (n mod 16))))
        else str1 c
    end.

Fixpoint quote_body (s : string) : string :=
  match s with
  | EmptyString => EmptyString
  | String c r => quote_char c ++ quote_body r
  end.

Definition quote (s : string) : string :=
  String dquote (quote_body s ++ str1 dquote).

Fixpoint join_comma (l : list string) : string :=
  match l with
  | [] => EmptyString
  | [x] => x
  | x :: r => x ++ "," ++ join_comma r
  end.

(** [JSON.stringify(v)]; [None] is the [undefined] it returns for
    [undefined].  A property whose value is [undefined] is left out, and
    [NaN] is written as [null]. *)
Fixpoint stringify (v : jsval) : option string :=
  match v with
  | JUndefined => None
  | JNull => Some "null"
  | JBool true => Some "true"
  | JBool false => Some "false"
  | JNum z => Some (string_of_Z z)
  | JNaN => Some "null"
  | JStr s => Some (quote s)
  | JObj fs =>
      let fix members (fs : list (string * jsval)) : list string :=
        match fs with
        | [] => []
        | (k, x) :: r =>
            match stringify x with
            | Some t => (quote k ++ ":" ++ t) :: members r
            | None => members r
            end
        end in
      Some ("{" ++ join_comma (members fs) ++ "}")
  end.

Definition hexval (c : ascii) : option N :=
  let n := N_of_ascii c in
  if ((48 <=? n) && (n <=? 57))%N then Some (n - 48)%N
  else if ((97 <=? n) && (n <=? 102))%N then Some (n - 87)%N
  else if ((65 <=? n) && (n <=? 70))%N then Some (n - 55)%N
  else None.

(** UTF-8 bytes of a code point of the basic plane; a lone surrogate has
    none. *)
Definition utf8 (n : N) : option string :=
  if (n <? 128)%N then Some (str1 (ascii_of_N n))
  else if (n <? 2048)%N then
    Some (String (ascii_of_N (192 + n / 64)) (str1 (ascii_of_N (128 + n mod 64))))
  else if ((55296 <=? n) && (n <=? 57343))%N then None
  else
    Some (String (ascii_of_N (224 + n / 4096))
            (String (ascii_of_N (128 + (n / 64) mod 64))
               (str1 (ascii_of_N (128 + n mod 64))))).

Definition unescape (e : ascii) : option ascii :=
  if Ascii.eqb e dquote then Some dquote
  else if Ascii.eqb e bslash then Some bslash
  else
    match e with
    | "/"%char => Some "/"%char
    | "b"%char => Some (ascii_of_nat 8)
    | "t"%char => Some (ascii_of_nat 9)
    | "n"%char => Some (ascii_of_nat 10)
    | "f"%char => Some (ascii_of_nat 12)
    | "r"%char => Some (ascii_of_nat 13)
    | _ => None
    end.

Definition hex4 (a b c d : ascii) : option N :=
  match hexval a, hexval b, hexval c, hexval d with
  | Some x, Some y, Some z, Some t => Some (((x * 16 + y) * 16 + z) * 16 + t)%N
  | _, _, _, _ => None
  end.

(** The characters of a string literal after its opening quote, up to and
    including the closing one. *)
Fixpoint parse_string_body (s : string) : option (string * string) :=
  match s with
  | EmptyString => None
  | String c r =>
      if Ascii.eqb c dquote then Some (EmptyString, r)
      else if Ascii.eqb c bslash then
        match r with
        | String "u" (String h1 (String h2 (String h3 (String h4 r')))) =>
            match hex4 h1 h2 h3 h4 with
            | Some n =>
                match utf8 n, parse_string_body r' with
                | Some b, Some (t, rest) => Some (b ++ t, rest)
                | _, _ => None
                end
            | None => None
            end
        | String e r' =>
            match unescape e, parse_string_body r' with
            | Some c', Some (t, rest) => Some (String c' t, rest)
            | _, _ => None
            end
        | EmptyString => None
        end
      else if (N_of_ascii c <? 32)%N then None
      else
        match parse_string_body r with
        | Some (t, rest) => Some (String c t, rest)
        | None => None
        end
  end.

Definition is_digit (c : ascii) : bool :=
  let n := N_of_ascii c in ((48 <=? n) && (n <=? 57))%N.

(** The longest prefix of digits, and what follows it. *)
Fixpoint span_digits (s : string) : string * string :=
  match s with
  | String c r =>
      if is_digit c
      then let (d, rest) := span_digits r in (String c d, rest)
      else (EmptyString, s)
  | EmptyString => (EmptyString, EmptyString)
  end.

(** A zero followed by more digits, which the grammar of JSON refuses. *)
Definition leading_zero (ds : string) : bool :=
  match ds with
  | String "0" (String _ _) => true
  | _ => false
  end.

(** An integer literal: an optional minus sign and at least one digit,
    without a leading zero; a fraction or an exponent after it is not
    read. *)
Definition parse_number (s : string) : option (jsval * string) :=
  let (neg, s1) :=
    match s with
    | String "-" r => (true, r)
    | _ => (false, s)
    end in
  let (ds, rest) := span_digits s1 in
  if leading_zero ds then None else
  match ds, NilEmpty.uint_of_string ds, rest with
  | EmptyString, _, _ => None
  | _, _, String "." _ | _, _, String "e" _ | _, _, String "E" _ => None
  | _, Some u, _ =>
      Some (JNum (if neg then - Z.of_uint u else Z.of_uint u)%Z, rest)
  | _, None, _ => None
  end.

(** The members of an object after the first opening quote has been
    seen to be due; [pv] reads one value. *)
Fixpoint parse_members (pv : string -> option (jsval * string)) (fuel : nat)
  (acc : list (string * jsval)) (s : string) : option (jsval * string) :=
  match fuel with
  | O => None
  | S fuel' =>
      match s with
      | String c r =>
          if Ascii.eqb c dquote then
            match parse_string_body r with
            | Some (k, String ":" r1) =>
                match pv r1 with
                | Some (v, String "," r2) =>
                    parse_members pv fuel' (obj_set acc k v) r2
                | Some (v, String "}" r2) => Some (JObj (obj_set acc k v), r2)
                | _ => None
                end
            | _ => None
            end
          else None
      | EmptyString => None
      end
  end.

Fixpoint parse_value (fuel : nat) (s : string) : option (jsval * string) :=
  match fuel with
  | O => None
  | S fuel' =>
      match s with
      | EmptyString => None
      | String c r =>
          if Ascii.eqb c dquote then
            match parse_string_body r with
            | Some (t, rest) => Some (JStr t, rest)
            | None => None
            end
          else
            match c, r with
            | "{"%char, String "}" r' => Some (JObj [], r')
            | "{"%char, _ => parse_members (parse_value fuel') fuel' [] r
            | "n"%char, String "u" (String "l" (String "l" r')) => Some (JNull, r')
            | "t"%char, String "r" (String "u" (String "e" r')) => Some (JBool true, r')
            | "f"%char, String "a" (String "l" (String "s" (String "e" r'))) =>
                Some (JBool false, r')
            | _, _ => parse_number s
            end
      end
  end.

(** [JSON.parse(s)]; [None] is its [SyntaxError].  The nesting depth of a
    text is below its length. *)
Definition parse (s : string) : option jsval :=
  match parse_value (String.length s) s with
  | Some (v, EmptyString) => Some v
  | _ => None
  end.

End Json.

(** ** SHA-256

    [crypto.createHash('sha256').update(s).digest('hex')] is Node's built-in
    hash; the function of FIPS 180-4 is written out on 32-bit words held in
    [Z], so that a challenge can be computed from a verifier. *)

Module Sha256.

Local Open Scope Z_scope.

Definition wrap (x : Z) : Z := x mod 2 ^ 32.
Definition add32 (x y : Z) : Z := wrap (x + y).
Definition rotr (n x : Z) : Z :=
  wrap (Z.lor (Z.shiftr x n) (Z.shiftl x (32 - n))).
Definition shr (n x : Z) : Z := Z.shiftr x n.
Definition not32 (x : Z) : Z := Z.lxor x (2 ^ 32 - 1).

Definition Ch (x y z : Z) : Z := Z.lxor (Z.land x y) (Z.land (not32 x) z).
Definition Maj (x y z : Z) : Z :=
  Z.lxor (Z.lxor (Z.land x y) (Z.land x z)) (Z.land y z).
Definition Sigma0 (x : Z) : Z := Z.lxor (Z.lxor (rotr 2 x) (rotr 13 x)) (rotr 22 x).
Definition Sigma1 (x : Z) : Z := Z.lxor (Z.lxor (rotr 6 x) (rotr 11 x)) (rotr 25 x).
Definition sigma0 (x : Z) : Z := Z.lxor (Z.lxor (rotr 7 x) (rotr 18 x)) (shr 3 x).
Definition sigma1 (x : Z) : Z := Z.lxor (Z.lxor (rotr 17 x) (rotr 19 x)) (shr 10 x).

(** The constants of the standard are fractional parts of roots of the
    first primes, which is how they are obtained here: [frac_root k p] is
    the first 32 bits of the fractional part of the [k]-th root of [p]. *)
Definition is_prime (n : Z) : bool :=
  (1 <? n) && forallb (fun d => negb (n mod Z.of_nat d =? 0)) (seq 2 (Z.to_nat n - 2)).

Definition primes : list Z := filter is_prime (map Z.of_nat (seq 2 310)).

Fixpoint root_bits (k : Z) (bits : nat) (n r : Z) : Z :=
  match bits with
  | O => r
  | S b =>
      let c := r + 2 ^ Z.of_nat b in
      if c ^ k <=? n then root_bits k b n c else root_bits k b n r
  end.

Definition frac_root (k p : Z) : Z := wrap (root_bits k 36 (p * 2 ^ (32 * k)) 0).

(** Cube roots of the first 64 primes. *)
Definition K : list Z := Eval vm_compute in map (frac_root 3) (firstn 64 primes).

Record state := mkState { ha : Z; hb : Z; hc : Z; hd : Z; he : Z; hf : Z; hg : Z; hh : Z }.

(** Square roots of the first 8 primes. *)
Definition H0 : state :=
  Eval vm_compute in
    match map (frac_root 2) (firstn 8 primes) with
    | [a; b; c; d; e; f; g; h] => mkState a b c d e f g h
    | _ => mkState 0 0 0 0 0 0 0 0
    end.

(** One round on the working variables; [w] is the schedule word of the
    round and [k] its constant. *)
Definition round (s : state) (k w : Z) : state :=
  let t1 := wrap (hh s + Sigma1 (he s) + Ch (he s) (hf s) (hg s) + k + w) in
  let t2 := wrap (Sigma0 (ha s) + Maj (ha s) (hb s) (hc s)) in
  mkState (add32 t1 t2) (ha s) (hb s) (hc s) (add32 (hd s) t1) (he s) (hf s) (hg s).

(** The schedule is kept as a window of the sixteen words from the current
    round on. *)
Definition next_window (win : list Z) : list Z :=
  let w i := nth i win 0 in
  tl win ++ [wrap (sigma1 (w 14%nat) + w 9%nat + sigma0 (w 1%nat) + w 0%nat)].

Fixpoint rounds (ks : list Z) (s : state) (win : list Z) : state :=
  match ks with
  | [] => s
  | k :: ks' => rounds ks' (round s k (nth 0 win 0)) (next_window win)
  end.

Definition compress (h : state) (block : list Z) : state :=
  let s := rounds K h block in
  mkState (add32 (ha h) (ha s)) (add32 (hb h) (hb s)) (add32 (hc h) (hc s))
          (add32 (hd h) (hd s)) (add32 (he h) (he s)) (add32 (hf h) (hf s))
          (add32 (hg h) (hg s)) (add32 (hh h) (hh s)).

(** Big-endian words of a byte sequence whose length is a multiple of 4. *)
Fixpoint words (bs : list Z) : list Z :=
  match bs with
  | b0 :: b1 :: b2 :: b3 :: r =>
      (((b0 * 256 + b1) * 256 + b2) * 256 + b3) :: words r
  | _ => []
  end.

Definition be_bytes (n : nat) (x : Z) : list Z :=
  map (fun i => (x / 256 ^ Z.of_nat i) mod 256) (rev (seq 0 n)).

(** The message, one [0x80], zeros up to 56 modulo 64, then the bit length
    on 8 bytes. *)
Definition pad (msg : list Z) : list Z :=
  let len := Z.of_nat (length msg) in
  let zeros := Z.to_nat ((55 - len) mod 64) in
  msg ++ [128] ++ repeat 0 zeros ++ be_bytes 8 (8 * len).

Fixpoint blocks (n : nat) (h : state) (ws : list Z) : state :=
  match n with
  | O => h
  | S n' => blocks n' (compress h (firstn 16 ws)) (skipn 16 ws)
  end.

Definition bytes_of_string (s : string) : list Z :=
  map (fun c => Z.of_N (N_of_ascii c)) (list_ascii_of_string s).

Definition digest (s : string) : state :=
  let ws := words (pad (bytes_of_string s)) in
  blocks (length ws / 16) H0 ws.

Definition nibble (x : Z) (i : Z) : ascii :=
  Json.hexdigit (Z.to_N ((x / 16 ^ i) mod 16)).

Definition word_hex (x : Z) : string :=
  String (nibble x 7) (String (nibble x 6) (String (nibble x 5) (String (nibble x 4)
  (String (nibble x 3) (String (nibble x 2) (String (nibble x 1) (String (nibble x 0)
   EmptyString))))))).

(** [.digest('hex')]: the eight words, most significant nibble first, in
    lower case. *)
Definition hex (s : state) : string :=
  (word_hex (ha s) ++ word_hex (hb s) ++ word_hex (hc s) ++ word_hex (hd s) ++
   word_hex (he s) ++ word_hex (hf s) ++ word_hex (hg s) ++ word_hex (hh s))%string.

Definition sha256_hex (s : string) : string := hex (digest s).

End Sha256.

(** ** The process and its surroundings *)

Inductive Method := GET | POST | PUT.

Inductive Payload :=
| NoBody
| Form (fields : list (string * string))   (* a [URLSearchParams] *)
| Json (v : jsval)
| Raw (bytes : string).

Record Request := mkRequest {
  method : Method;
  url : jsval;
  payload : Payload;
  headers : list (string * string)
}.

Record AxiosResponse := mkAxiosResponse { status : Z; data : jsval }.

(** How an axios call settles: the promise resolves with a response, or it
    rejects (transport failure, or a status outside 2xx, in which case the
    error carries the reply's body). *)
Inductive AxiosResult :=
| Resolved (r : AxiosResponse)
| Rejected (e : JsError).

Record Reply := mkReply { result : AxiosResult; elapsed : N }.

Record ProcessEnv := mkEnv {
  PORT : option string;
  TIKTOK_CLIENT_KEY : option string;
  TIKTOK_CLIENT_SECRET : option string;
  TIKTOK_REDIRECT_URI : option string;
  ENCRYPTION_KEY : option string
}.

Definition env_val (v : option string) : jsval :=
  match v with Some s => JStr s | None => JUndefined end.

(** The state a handler can read and change. *)
Record World := mkWorld {
  codeVerifier : jsval;            (* [let codeVerifier = null] *)
  fs : gmap string string;         (* files by path, with their bytes *)
  clock : Z;                       (* what [Date.now()] returns *)
  draws : nat;                     (* calls of [Math.random()] so far *)
  sent : list Request              (* outbound HTTP calls, oldest first *)
}.

Definition set_codeVerifier (v : jsval) (w : World) : World :=
  mkWorld v (fs w) (clock w) (draws w) (sent w).
Definition set_fs (f : gmap string string) (w : World) : World :=
  mkWorld (codeVerifier w) f (clock w) (draws w) (sent w).

(** What a handler sends back. *)
Inductive Body :=
| Text (s : string)          (* [res.send] *)
| JsonBody (v : jsval)       (* [res.json] *)
| Redirect (location : jsval).

Record Response := mkResponse { code : Z; body : Body }.

Record UploadedFile := mkFile {
  path : string;
  size : Z;
  originalname : string
}.

Record Req := mkReq {
  query : list (string * jsval);
  reqbody : jsval;
  file : option UploadedFile
}.

(** *** The monad of handler code *)

Definition M (A : Type) : Type := World -> Outcome A * World.

Definition ret {A} (a : A) : M A := fun w => (Ok a, w).
Definition throw {A} (e : JsError) : M A := fun w => (Throw e, w).
Definition bind {A B} (m : M A) (k : A -> M B) : M B :=
  fun w =>
    match m w with
    | (Ok a, w') => k a w'
    | (Throw e, w') => (Throw e, w')
    end.
(** [try { m } catch (err) { h err }] *)
Definition try_catch {A} (m : M A) (h : JsError -> M A) : M A :=
  fun w =>
    match m w with
    | (Ok a, w') => (Ok a, w')
    | (Throw e, w') => h e w'
    end.
Definition lift {A} (o : Outcome A) : M A := fun w => (o, w).
Definition modify (f : World -> World) : M unit := fun w => (Ok tt, f w).
Definition gets {A} (f : World -> A) : M A := fun w => (Ok (f w), w).

(** [v.k] as a step of handler code *)
Definition prop (v : jsval) (k : string) : M jsval := lift (get_prop v k).

Declare Scope js_scope.
Delimit Scope js_scope with js.
Notation "'do' x <- m ; k" := (bind m (fun x => k))
  (at level 10, x name, m at level 100, k at level 200) : js_scope.
Notation "'run' m ; k" := (bind m (fun _ => k))
  (at level 10, m at level 100, k at level 200) : js_scope.
Local Open Scope js_scope.

Definition Date_now : M Z := gets clock.

(** *** The file system calls of [fs] *)

Definition existsSync (p : string) : M bool :=
  gets (fun w => bool_decide (is_Some (fs w !! p))).

Definition ENOENT (op p : string) : JsError :=
  Error ("ENOENT: no such file or directory, " ++ op ++ " '" ++ p ++ "'").

Definition unlinkSync (p : string) : M unit :=
  fun w =>
    match fs w !! p with
    | Some _ => (Ok tt, set_fs (delete p (fs w)) w)
    | None => (Throw (ENOENT "unlink" p), w)
    end.

Definition readFileSync (p : string) : M string :=
  fun w =>
    match fs w !! p with
    | Some bytes => (Ok bytes, w)
    | None => (Throw (ENOENT "open" p), w)
    end.

Definition writeFileSync (p bytes : string) : M unit :=
  modify (fun w => set_fs (<[p := bytes]> (fs w)) w).

(** *** [querystring] *)

Definition is_unreserved (c : ascii) : bool :=
  let n := N_of_ascii c in
  (((48 <=? n) && (n <=? 57)) || ((65 <=? n) && (n <=? 90)) ||
   ((97 <=? n) && (n <=? 122)))%N ||
  existsb (Ascii.eqb c) (list_ascii_of_string "-_.!~*'()").

Definition upper_hexdigit (n : N) : ascii :=
  match String.get (N.to_nat n) "0123456789ABCDEF" with
  | Some c => c
  | None => "0"%char
  end.

(** [querystring.escape] *)
Fixpoint qs_escape (s : string) : string :=
  match s with
  | EmptyString => EmptyString
  | String c r =>
      if is_unreserved c then String c (qs_escape r)
      else
        let n := N_of_ascii c in
        String "%" (String (upper_hexdigit (n / 16))
                      (String (upper_hexdigit (n mod 16)) (qs_escape r)))
  end.

(** What [querystring.stringify] writes for a value: strings, numbers and
    booleans as text, anything else as nothing. *)
Definition stringifyPrimitive (v : jsval) : string :=
  match v with
  | JStr _ | JNum _ | JBool _ => to_string v
  | _ => EmptyString
  end.

Fixpoint qs_stringify (params : list (string * jsval)) : string :=
  match params with
  | [] => EmptyString
  | [(k, v)] => qs_escape k ++ "=" ++ qs_escape (stringifyPrimitive v)
  | (k, v) :: r =>
      qs_escape k ++ "=" ++ qs_escape (stringifyPrimitive v) ++ "&" ++ qs_stringify r
  end.

(** [new URLSearchParams({...})]: every value goes through [String]. *)
Definition URLSearchParams (o : list (string * jsval)) : Payload :=
  Form (map (fun kv => (fst kv, to_string (snd kv))) o).

(** [s.charAt(i)] *)
Definition charAt (s : string) (i : Z) : string :=
  if (i <? 0)%Z then EmptyString
  else match String.get (Z.to_nat i) s with
       | Some c => String c EmptyString
       | None => EmptyString
       end.

(** [(bytes / 1024 / 1024).toFixed(2)] on a byte count: the divisions by
    powers of two are exact, and [toFixed] rounds the tie upwards. *)
Definition toFixed2_MB (bytes : Z) : string :=
  let n := ((bytes * 200 + 2 ^ 20) / 2 ^ 21)%Z in
  let cents := (n mod 100)%Z in
  string_of_Z (n / 100) ++ "." ++
  (if (cents <? 10)%Z then "0" else EmptyString) ++ string_of_Z cents.

Definition send (c : Z) (s : string) : Response := mkResponse c (Text s).
Definition json (c : Z) (v : jsval) : Response := mkResponse c (JsonBody v).

(** [err.response?.data || err.message] *)
Definition error_details (err : JsError) : jsval :=
  match response_data err with
  | Some d => js_or d (JStr (message err))
  | None => JStr (message err)
  end.

Definition token_endpoint : jsval := JStr "https://open.tiktokapis.com/v2/oauth/token/".
Definition token_path : string := "./data/tokens.encrypted.json".
Definition MiB10 : Z := 10 * 1024 * 1024.

(** ** The data model *)

(** The persisted record of the data model: two opaque strings and an
    absolute time in epoch milliseconds. *)
Definition TokenRecord (access_token refresh_token : string) (expires_at : Z) : jsval :=
  JObj [ ("access_token", JStr access_token);
         ("refresh_token", JStr refresh_token);
         ("expires_at", JNum expires_at) ].

(** A record of the data model: the three fields, two strings and a
    number, in the order the handlers write them. *)
Definition well_formed (v : jsval) : bool :=
  match v with
  | JObj [(k1, JStr _); (k2, JStr _); (k3, JNum _)] =>
      String.eqb k1 "access_token" && String.eqb k2 "refresh_token"
      && String.eqb k3 "expires_at"
  | _ => false
  end.

(** The JSON text of a record of the data model. *)
Definition record_text (a r : string) (e : Z) : string :=
  "{" ++ Json.quote "access_token" ++ ":" ++ Json.quote a ++ String ","
    (Json.quote "refresh_token" ++ ":" ++ Json.quote r ++ String ","
       (Json.quote "expires_at" ++ ":" ++ string_of_Z e ++ String "}" EmptyString)).

(** What [generatePKCE] returns. *)
Record Pkce := mkPkce { verifier : string; challenge : string }.

(** ** A concrete deployment

    One instance of everything the server is parameterized by, to run the
    handlers on. *)

Definition env0 : ProcessEnv :=
  mkEnv (Some "7777") (Some "client-key") (Some "client-secret")
        (Some "https://example.test/auth/callback") (Some "k3y").

(** No string is a number. *)
Definition no_numbers (s : string) : option Z := None.

(** A random source that walks through the alphabet. *)
Definition cycle_source (n : nat) : Q := Z.of_nat (n mod 66) # 66.

(** A stand-in for the cipher: the text is tagged with the key, and a text
    that does not carry the key does not decrypt. *)
Fixpoint strip (p s : string) : option string :=
  match p, s with
  | EmptyString, _ => Some s
  | String a p', String b s' => if Ascii.eqb a b then strip p' s' else None
  | String _ _, EmptyString => None
  end.

Definition key_text (k : option string) : string :=
  match k with Some s => s | None => EmptyString end.
Definition tag_encrypt (k : option string) (text : string) : string :=
  key_text k ++ text.
Definition tag_decrypt (k : option string) (c : string) : option string :=
  strip (key_text k) c.

(** A platform that refuses every call with a 401. *)
Definition unauthorized : JsError :=
  mkError "Request failed with status code 401"
          (Some (JObj [("error", JStr "access_token_invalid")])).
Definition refusing (log : list Request) (rq : Request) : Reply :=
  mkReply (Rejected unauthorized) 120.

(** A platform that answers every call with status 200 and an error
    body. *)
Definition invalid_grant : jsval :=
  JObj [ ("error", JStr "invalid_grant");
         ("error_description", JStr "Authorization code is expired.") ].
Definition complaining (log : list Request) (rq : Request) : Reply :=
  mkReply (Resolved (mkAxiosResponse 200 invalid_grant)) 80.

(** A platform that grants tokens, opens upload sessions and takes the
    bytes. *)
Definition granting (log : list Request) (rq : Request) : Reply :=
  match method rq, url rq with
  | PUT, _ => mkReply (Resolved (mkAxiosResponse 201 (JStr EmptyString))) 900
  | _, JStr u =>
      if String.eqb u "https://open.tiktokapis.com/v2/oauth/token/" then
        mkReply (Resolved (mkAxiosResponse 200
                   (JObj [ ("access_token", JStr "A");
                           ("refresh_token", JStr "R");
                           ("expires_in", JNum 3600) ]))) 150
      else
        mkReply (Resolved (mkAxiosResponse 200
                   (JObj [ ("data", JObj [ ("publish_id", JStr "p.1");
                                           ("upload_url", JStr "https://upload.test/p.1") ]);
                           ("error", JObj [ ("code", JStr "ok");
                                            ("message", JStr EmptyString) ]) ]))) 200
  | _, _ => mkReply (Rejected (Error "Invalid URL")) 0
  end.

(** The state of a first run, and states with a stored record. *)
Definition fresh : World := mkWorld JNull ∅ 1700000000000 0 [].

Definition stored (a r : string) (e : Z) (now : Z) : World :=
  mkWorld JNull
    {[ token_path := tag_encrypt (ENCRYPTION_KEY env0) (record_text a r e) ]}
    now 0 [].

Definition no_query : Req := mkReq [] (JObj []) None.

Definition clip : UploadedFile := mkFile "/tmp/uploads/3f9a" 11 "clip.mp4".
Definition with_clip (w : World) : World :=
  set_fs (<[ "/tmp/uploads/3f9a" := "video bytes" ]> (fs w)) w.
Definition upload_clip : Req := mkReq [] (JObj []) (Some clip).

Definition valid_store : World := stored "A" "R" 1700003600000 1700000000000.

Definition pending_flow : World := set_codeVerifier (JStr "pending-verifier") fresh.
Definition callback_req : Req := mkReq [("code", JStr "c0de")] (JObj []) None.
Definition fields_req : Req := mkReq [("fields", JStr "open_id")] (JObj []) None.

(** A second login, 66 draws later: the source is back where it was. *)
Definition later : World := mkWorld (JStr "an earlier verifier") ∅ 1700000500000 66 [].

Definition pkce0 : Pkce :=
  mkPkce "ABCDEFGHIJKLMNOPQRSTUVWXYZabcdefghijklmnopqrstuvwxyz0123456789-."
         "83a34dcbbc286dec9805a1863b905053c10f237a306131b5284e8da9ee91f933".

(** A platform that cannot be reached. *)
Definition unreachable (log : list Request) (rq : Request) : Reply :=
  mkReply (Rejected (Error "connect ETIMEDOUT")) 30000.

(** More of the deployment: a record about to expire, a platform that
    forgets the lifetime, a platform that also serves the video, and the
    requests of the other upload handlers. *)
Definition stale_store : World := stored "A0" "R0" 1700000059000 1700000000000.

Definition granting_without_lifetime (log : list Request) (rq : Request) : Reply :=
  mkReply (Resolved (mkAxiosResponse 200
             (JObj [ ("access_token", JStr "A"); ("refresh_token", JStr "R") ]))) 150.

Definition serving (log : list Request) (rq : Request) : Reply :=
  match method rq with
  | GET => mkReply (Resolved (mkAxiosResponse 200 (JStr "video bytes"))) 2500
  | _ => granting log rq
  end.

Definition direct_post_req : Req :=
  mkReq [] (JObj [ ("file_path", JStr "/tmp/uploads/3f9a"); ("title", JStr "My clip") ]) None.

Definition url_upload_req : Req :=
  mkReq [] (JObj [ ("video_url", JStr "https://media.example.test/clip.mp4") ]) None.

(** A platform that opens upload sessions and then refuses the bytes. *)
Definition forbidden : JsError :=
  mkError "Request failed with status code 403"
          (Some (JObj [("error", JStr "upload_url_expired")])).
Definition dropping (log : list Request) (rq : Request) : Reply :=
  match method rq with
  | PUT => mkReply (Rejected forbidden) 700
  | _ => granting log rq
  end.

(** ** The server *)

Section Server.

Variable env : ProcessEnv.
Variable StringToNumber : string -> option Z.

(** [Math.random()]: the [n]-th call returns [Math_random_source n]. *)
Variable Math_random_source : nat -> Q.
Hypothesis Math_random_range :
  forall n, (0 <= Math_random_source n)%Q /\ (Math_random_source n < 1)%Q.

(** The platform: how the call [rq] settles after the calls [log]. *)
Variable platform : list Request -> Request -> Reply.

(** The authenticated cipher of the secret cipher wrapper, keyed by
    [ENCRYPTION_KEY]; decryption fails on a text it did not produce. *)
Variable encrypt : option string -> string -> string.
Variable decrypt : option string -> string -> option string.
Hypothesis decrypt_encrypt : forall k text, decrypt k (encrypt k text) = Some text.

Local Abbreviation mul := (js_mul StringToNumber).
Local Abbreviation sub := (js_sub StringToNumber).
Local Abbreviation add := (js_add_num StringToNumber).
Local Abbreviation lt := (js_lt StringToNumber).

Definition Math_random : M Q :=
  fun w =>
    (Ok (Math_random_source (draws w)),
     mkWorld (codeVerifier w) (fs w) (clock w) (S (draws w)) (sent w)).

(** [await axios(...)]: the call is logged, time passes, and the promise
    settles as the platform decides. *)
Definition axios (rq : Request) : M AxiosResponse :=
  fun w =>
    let reply := platform (sent w) rq in
    let w' := mkWorld (codeVerifier w) (fs w) (clock w + Z.of_N (elapsed reply))
                      (draws w) (sent w ++ [rq]) in
    match result reply with
    | Resolved r => (Ok r, w')
    | Rejected e => (Throw e, w')
    end.

Definition axios_post (u : jsval) (p : Payload) (h : list (string * string)) :=
  axios (mkRequest POST u p h).
Definition axios_get (u : jsval) (h : list (string * string)) :=
  axios (mkRequest GET u NoBody h).
Definition axios_put (u : jsval) (p : Payload) (h : list (string * string)) :=
  axios (mkRequest PUT u p h).

(** *** Token storage *)

(** Modelled from the spec: [saveTokens] of the class [SecureTokenStorage]
    ([./tokenStorage], required by [index.js] and absent from the sources).
    The record is serialized to its JSON text, encrypted under the
    configured key and written to the configured path, replacing what was
    there. *)
Definition saveTokens (tokens : jsval) : M unit :=
  match Json.stringify tokens with
  | Some text => writeFileSync token_path (encrypt (ENCRYPTION_KEY env) text)
  | None => throw (Error "Cannot encrypt undefined")
  end.

(** Modelled from the spec: [loadTokens] of the same class.  No file is
    'no tokens' ([null]), not an error; a file that does not decrypt or
    does not parse is a fatal configuration error. *)
Definition loadTokens : M jsval :=
  fun w =>
    match fs w !! token_path with
    | None => (Ok JNull, w)
    | Some ciphertext =>
        match decrypt (ENCRYPTION_KEY env) ciphertext with
        | None => (Throw (Error "Failed to decrypt token file"), w)
        | Some text =>
            match Json.parse text with
            | Some tokens => (Ok tokens, w)
            | None => (Throw (Error "Failed to parse token file"), w)
            end
        end
    end.

(** *** PKCE *)

Definition characters : string :=
  "ABCDEFGHIJKLMNOPQRSTUVWXYZabcdefghijklmnopqrstuvwxyz0123456789-._~".

(** The [for] loop of [generateRandomString], with [n] iterations left. *)
Fixpoint generateRandomString_loop (n : nat) (result : string) : M string :=
  match n with
  | O => ret result
  | S n' =>
      do r <- Math_random;
      let charactersLength := Z.of_nat (String.length characters) in
      generateRandomString_loop n'
        (result ++ charAt characters (Qfloor (r * inject_Z charactersLength)))
  end.

Definition generateRandomString (length : nat) : M string :=
  generateRandomString_loop length EmptyString.

Definition generatePKCE : M Pkce :=
  do verifier <- generateRandomString 64;
  let challenge := Sha256.sha256_hex verifier in
  ret (mkPkce verifier challenge).

(** *** [GET /auth/login] *)

Definition login_params (pkce : Pkce) : list (string * jsval) :=
  [ ("client_key", env_val (TIKTOK_CLIENT_KEY env));
    ("redirect_uri", env_val (TIKTOK_REDIRECT_URI env));
    ("response_type", JStr "code");
    ("scope", JStr "user.info.basic,user.info.profile,user.info.stats,video.publish,video.upload");
    ("state", JStr "secureRandomState123");
    ("code_challenge", JStr (challenge pkce));
    ("code_challenge_method", JStr "S256") ].

Definition auth_login (req : Req) : M Response :=
  do pkce <- generatePKCE;
  run modify (set_codeVerifier (JStr (verifier pkce)));
  let params := login_params pkce in
  let authUrl := "https://www.tiktok.com/v2/auth/authorize/?" ++ qs_stringify params in
  ret (mkResponse 302 (Redirect (JStr authUrl))).

(** *** [GET /auth/callback] *)

(** The confirmation page of the first copy of the server, byte for byte
    (the heading's first three characters are as the file has them; the
    second copy's page differs in its usage notes). *)
Definition login_successful_page : string :=
  Eval vm_compute in
  let nl := Json.str1 (ascii_of_nat 10) in
  let q := Json.str1 Json.dquote in
  nl ++
  "      <h1>âœ… Login Successful!</h1>" ++ nl ++
  "      <p>Tokens acquired and stored securely.</p>" ++ nl ++
  "      <h2>Available Endpoints:</h2>" ++ nl ++
  "      <ul>" ++ nl ++
  "        <li><a href=" ++ q ++ "/creator-info" ++ q ++ ">Creator Info</a> - Get your TikTok profile info</li>" ++ nl ++
  "        <li><a href=" ++ q ++ "/user/info?fields=open_id,union_id,avatar_url,display_name,bio_description" ++ q ++ ">User Info</a> - Get your TikTok user info</li>" ++ nl ++
  "        <li><a href=" ++ q ++ "/health" ++ q ++ ">Health Check</a> - Server status</li>" ++ nl ++
  "      </ul>" ++ nl ++
  "      <h3>API Usage:</h3>" ++ nl ++
  "      <pre>" ++ nl ++
  "POST /video/direct-post" ++ nl ++
  "{" ++ nl ++
  "  " ++ q ++ "file_path" ++ q ++ ": " ++ q ++ "/path/to/video.mp4" ++ q ++ "," ++ nl ++
  "  " ++ q ++ "title" ++ q ++ ": " ++ q ++ "Your video title" ++ q ++ nl ++
  "}" ++ nl ++
  nl ++
  "GET /video/status?publish_id=YOUR_PUBLISH_ID" ++ nl ++
  "      </pre>" ++ nl ++
  "    ".

Definition form_headers : list (string * string) :=
  [("Content-Type", "application/x-www-form-urlencoded")].

Definition auth_callback (req : Req) : M Response :=
  let code := obj_get (query req) "code" in
  if negb (truthy code) then ret (send 400 "Missing code")
  else
    do cv <- gets codeVerifier;
    if negb (truthy cv) then ret (send 400 "No code verifier found")
    else
      try_catch
        (let requestData := URLSearchParams
             [ ("client_key", env_val (TIKTOK_CLIENT_KEY env));
               ("client_secret", env_val (TIKTOK_CLIENT_SECRET env));
               ("code", code);
               ("grant_type", JStr "authorization_code");
               ("redirect_uri", env_val (TIKTOK_REDIRECT_URI env));
               ("code_verifier", cv) ] in
         do tokenRes <- axios_post token_endpoint requestData form_headers;
         do error <- prop (data tokenRes) "error";
         if truthy error then
           do description <- prop (data tokenRes) "error_description";
           ret (send 400 ("Error: " ++ to_string error ++ ", Description: "
                            ++ to_string description))
         else
           do access_token <- prop (data tokenRes) "access_token";
           if negb (truthy access_token) then ret (send 400 "Access token not received")
           else
             do refresh_token <- prop (data tokenRes) "refresh_token";
             do expires_in <- prop (data tokenRes) "expires_in";
             do now <- Date_now;
             run saveTokens (JObj
                   [ ("access_token", access_token);
                     ("refresh_token", refresh_token);
                     ("expires_at", add (JNum now) (mul expires_in (JNum 1000))) ]);
             run modify (set_codeVerifier JNull);
             ret (send 200 login_successful_page))
        (fun err => ret (send 500 "Token exchange failed")).

(** *** [getValidAccessToken] *)

Definition port : string := to_string (env_val (PORT env)).

Definition no_tokens_message : string :=
  "No tokens available. Please complete OAuth flow first. Visit http://localhost:"
    ++ port ++ "/auth/login".

Definition refresh_failed_message : string :=
  "Token refresh failed. Please re-authenticate at http://localhost:"
    ++ port ++ "/auth/login".

(** The refresh-token grant that [getValidAccessToken] posts. *)
Definition refresh_request (stored_refresh_token : jsval) : Request :=
  mkRequest POST token_endpoint
    (URLSearchParams
       [ ("client_key", env_val (TIKTOK_CLIENT_KEY env));
         ("client_secret", env_val (TIKTOK_CLIENT_SECRET env));
         ("grant_type", JStr "refresh_token");
         ("refresh_token", stored_refresh_token) ])
    form_headers.

Definition getValidAccessToken : M jsval :=
  do tokens <- loadTokens;
  if negb (truthy tokens) then throw (Error no_tokens_message)
  else
    do now <- Date_now;
    do expires_at <- prop tokens "expires_at";
    if lt (JNum now) (sub expires_at (JNum (60 * 1000))) then
      prop tokens "access_token"
    else
      try_catch
        (do stored_refresh_token <- prop tokens "refresh_token";
         let requestData := URLSearchParams
             [ ("client_key", env_val (TIKTOK_CLIENT_KEY env));
               ("client_secret", env_val (TIKTOK_CLIENT_SECRET env));
               ("grant_type", JStr "refresh_token");
               ("refresh_token", stored_refresh_token) ] in
         do refreshRes <- axios_post token_endpoint requestData form_headers;
         do error <- prop (data refreshRes) "error";
         if truthy error then
           do description <- prop (data refreshRes) "error_description";
           throw (Error ("Token refresh failed: " ++ to_string description))
         else
           do access_token <- prop (data refreshRes) "access_token";
           do refresh_token <- prop (data refreshRes) "refresh_token";
           do expires_in <- prop (data refreshRes) "expires_in";
           do now' <- Date_now;
           run saveTokens (JObj
                 [ ("access_token", access_token);
                   ("refresh_token", refresh_token);
                   ("expires_at", add (JNum now') (mul expires_in (JNum 1000))) ]);
           ret access_token)
        (fun error => throw (Error refresh_failed_message)).

(** *** The proxy handlers *)

Definition bearer_json (access_token : jsval) : list (string * string) :=
  [ ("Authorization", "Bearer " ++ to_string access_token);
    ("Content-Type", "application/json; charset=UTF-8") ].

Definition failure (what : string) (err : JsError) : Response :=
  json 500 (JObj [("error", JStr what); ("details", error_details err)]).

(** [GET /creator-info] *)
Definition creator_info (req : Req) : M Response :=
  try_catch
    (do access_token <- getValidAccessToken;
     do profile <- axios_post
          (JStr "https://open.tiktokapis.com/v2/post/publish/creator_info/query/")
          (Json (JObj [])) (bearer_json access_token);
     ret (json 200 (data profile)))
    (fun err => ret (send 500 "API call failed")).

(** [GET /user/info] *)
Definition user_info (req : Req) : M Response :=
  try_catch
    (do access_token <- getValidAccessToken;
     let fields := obj_get (query req) "fields" in
     if negb (truthy fields) then
       ret (json 400 (JObj
              [ ("error", JStr "fields query parameter is required");
                ("example", JStr "GET /user/info?fields=open_id,union_id,avatar_url") ]))
     else
       do userInfoResponse <- axios_get
            (JStr ("https://open.tiktokapis.com/v2/user/info/?fields=" ++ to_string fields))
            [("Authorization", "Bearer " ++ to_string access_token)];
       ret (json 200 (data userInfoResponse)))
    (fun err => ret (failure "User info request failed" err)).

(** [GET /video/status] *)
Definition video_status (req : Req) : M Response :=
  try_catch
    (do access_token <- getValidAccessToken;
     let publish_id := obj_get (query req) "publish_id" in
     if negb (truthy publish_id) then
       ret (json 400 (JObj [("error", JStr "publish_id query parameter is required")]))
     else
       do statusResponse <- axios_post
            (JStr "https://open.tiktokapis.com/v2/post/publish/status/fetch/")
            (Json (JObj [("publish_id", publish_id)])) (bearer_json access_token);
       ret (json 200 (data statusResponse)))
    (fun err => ret (failure "Status check failed" err)).

(** [code !== 'ok'] *)
Definition not_ok (c : jsval) : bool :=
  match c with
  | JStr s => negb (String.eqb s "ok")
  | _ => true
  end.

Definition source_info (videoSize : Z) (chunkSize : Z) (totalChunkCount : jsval) : jsval :=
  JObj [ ("source", JStr "FILE_UPLOAD");
         ("video_size", JNum videoSize);
         ("chunk_size", JNum chunkSize);
         ("total_chunk_count", totalChunkCount) ].

Definition upload_headers (videoSize : Z) : list (string * string) :=
  [ ("Content-Range",
     "bytes 0-" ++ string_of_Z (videoSize - 1) ++ "/" ++ string_of_Z videoSize);
    ("Content-Type", "video/mp4");
    ("Content-Length", string_of_Z videoSize) ].

(** The init request of [POST /video/upload] for a video of [videoSize]
    bytes. *)
Definition inbox_init_request (access_token : jsval) (videoSize : Z) : Request :=
  let chunkSize := if (videoSize <? MiB10)%Z then videoSize else MiB10 in
  let totalChunkCount := Math_ceil_div videoSize chunkSize in
  mkRequest POST (JStr "https://open.tiktokapis.com/v2/post/publish/inbox/video/init/")
    (Json (JObj [("source_info", source_info videoSize chunkSize totalChunkCount)]))
    (bearer_json access_token).

(** The clean-up of the [catch] block of [POST /video/upload]:
    [if (req.file && req.file.path && fs.existsSync(req.file.path))
       fs.unlinkSync(req.file.path)]. *)
Definition cleanup_temp_file (req : Req) : M unit :=
  match file req with
  | Some f =>
      if truthy (JStr (path f)) then
        do there <- existsSync (path f);
        if there then unlinkSync (path f) else ret tt
      else ret tt
  | None => ret tt
  end.

(** [POST /video/upload], the variant that takes the file from the
    multipart form ([upload.single('video')] has stored it under
    [req.file.path] before the handler runs). *)
Definition video_upload (req : Req) : M Response :=
  try_catch
    (match file req with
     | None => ret (json 400 (JObj [("error", JStr "No video file uploaded")]))
     | Some f =>
         let videoPath := path f in
         let videoSize := size f in
         do access_token <- getValidAccessToken;
         let chunkSize := if (videoSize <? MiB10)%Z then videoSize else MiB10 in
         let totalChunkCount := Math_ceil_div videoSize chunkSize in
         do initResponse <- axios_post
              (JStr "https://open.tiktokapis.com/v2/post/publish/inbox/video/init/")
              (Json (JObj [("source_info", source_info videoSize chunkSize totalChunkCount)]))
              (bearer_json access_token);
         do error <- prop (data initResponse) "error";
         do failed <- (if truthy error
                       then do c <- prop error "code"; ret (not_ok c)
                       else ret false);
         if failed then
           run unlinkSync videoPath;
           do msg <- prop error "message";
           throw (Error ("TikTok API Error: " ++ to_string msg))
         else
           do d <- prop (data initResponse) "data";
           do publish_id <- prop d "publish_id";
           do upload_url <- prop d "upload_url";
           do videoBuffer <- readFileSync videoPath;
           do uploadResponse <- axios_put upload_url (Raw videoBuffer)
                                  (upload_headers videoSize);
           run unlinkSync videoPath;
           ret (json 200 (JObj
                  [ ("success", JBool true);
                    ("message", JStr "Video uploaded to TikTok inbox successfully. User must complete editing flow in TikTok app.");
                    ("data", JObj
                       [ ("publish_id", publish_id);
                         ("file_info", JObj
                            [ ("original_name", JStr (originalname f));
                              ("size", JNum videoSize);
                              ("size_mb", JStr (toFixed2_MB videoSize)) ]);
                         ("note", JStr "Video is now in TikTok inbox. User must click on inbox notifications to continue the editing flow in TikTok and complete the post.") ]) ]))
     end)
    (fun err =>
       run cleanup_temp_file req;
       ret (failure "Video upload failed" err)).

(** [POST /video/direct-post] *)
Definition video_direct_post (req : Req) : M Response :=
  try_catch
    (do access_token <- getValidAccessToken;
     do file_path <- prop (reqbody req) "file_path";
     do title <- prop (reqbody req) "title";
     if negb (truthy file_path) then
       ret (json 400 (JObj [("error", JStr "file_path is required")]))
     else if negb (truthy title) then
       ret (json 400 (JObj [("error", JStr "title is required")]))
     else
       do there <- (match file_path with JStr p => existsSync p | _ => ret false end);
       if negb there then
         ret (json 400 (JObj [("error", JStr "File not found at specified path")]))
       else
         let p := to_string file_path in
         do bytes <- readFileSync p;               (* [fs.statSync(p).size] *)
         let fileSize := Z.of_nat (String.length bytes) in
         let chunkSize := if (fileSize <? MiB10)%Z then fileSize else MiB10 in
         let totalChunkCount := Math_ceil_div fileSize chunkSize in
         do initResponse <- axios_post
              (JStr "https://open.tiktokapis.com/v2/post/publish/video/init/")
              (Json (JObj
                 [ ("post_info", JObj
                      [ ("title", title);
                        ("privacy_level", JStr "PUBLIC_TO_EVERYONE");
                        ("disable_duet", JBool false);
                        ("disable_comment", JBool false);
                        ("disable_stitch", JBool false);
                        ("video_cover_timestamp_ms", JNum 1000) ]);
                   ("source_info", source_info fileSize chunkSize totalChunkCount) ]))
              (bearer_json access_token);
         do error <- prop (data initResponse) "error";
         do failed <- (if truthy error
                       then do c <- prop error "code"; ret (not_ok c)
                       else ret false);
         if failed then
           do msg <- prop error "message";
           throw (Error ("TikTok API Error: " ++ to_string msg))
         else
           do d <- prop (data initResponse) "data";
           do publish_id <- prop d "publish_id";
           do upload_url <- prop d "upload_url";
           do videoBuffer <- readFileSync p;
           do uploadResponse <- axios_put upload_url (Raw videoBuffer)
                                  (upload_headers fileSize);
           ret (json 200 (JObj
                  [ ("success", JBool true);
                    ("message", JStr "Video upload requested successfully");
                    ("data", JObj
                       [ ("publish_id", publish_id);
                         ("status_url", JStr ("http://localhost:" ++ port ++
                              "/video/status?publish_id=" ++ to_string publish_id));
                         ("file_info", JObj
                            [ ("path", file_path);
                              ("size", JNum fileSize);
                              ("size_mb", JStr (toFixed2_MB fileSize)) ]) ]) ])))
    (fun err => ret (failure "Video upload failed" err)).

(** The calls the proxy handlers make with the token [t]. *)
Definition creator_info_request (t : jsval) : Request :=
  mkRequest POST (JStr "https://open.tiktokapis.com/v2/post/publish/creator_info/query/")
    (Json (JObj [])) (bearer_json t).

Definition user_info_request (t fields : jsval) : Request :=
  mkRequest GET
    (JStr ("https://open.tiktokapis.com/v2/user/info/?fields=" ++ to_string fields))
    NoBody [("Authorization", "Bearer " ++ to_string t)].

Definition video_status_request (t publish_id : jsval) : Request :=
  mkRequest POST (JStr "https://open.tiktokapis.com/v2/post/publish/status/fetch/")
    (Json (JObj [("publish_id", publish_id)])) (bearer_json t).

(** The 400 of [/user/info]. *)
Definition fields_required : Response :=
  json 400 (JObj
    [ ("error", JStr "fields query parameter is required");
      ("example", JStr "GET /user/info?fields=open_id,union_id,avatar_url") ]).

(** A predicate on every character of a string. *)
Fixpoint all_chars (p : ascii -> bool) (s : string) : bool :=
  match s with
  | EmptyString => true
  | String c r => p c && all_chars p r
  end.

(** The 66 characters a verifier is drawn from: A-Z, a-z, 0-9 and
    [-], [.], [_], [~]. *)
Definition verifier_char (c : ascii) : bool :=
  let n := N_of_ascii c in
  (((65 <=? n) && (n <=? 90)) || ((97 <=? n) && (n <=? 122)) ||
   ((48 <=? n) && (n <=? 57)) ||
   (n =? 45) || (n =? 46) || (n =? 95) || (n =? 126))%N.

(** A lower-case hexadecimal digit. *)
Definition lower_hex_char (c : ascii) : bool :=
  let n := N_of_ascii c in
  (((48 <=? n) && (n <=? 57)) || ((97 <=? n) && (n <=? 102)))%N.

(** The state after [n] more calls of [Math.random()]. *)
Definition drawn (n : nat) (w : World) : World :=
  mkWorld (codeVerifier w) (fs w) (clock w) (n + draws w) (sent w).

(** The authorization-code grant that [/auth/callback] posts for the code
    [c] with the pending verifier [cv]. *)
Definition exchange_request (c cv : jsval) : Request :=
  mkRequest POST token_endpoint
    (URLSearchParams
       [ ("client_key", env_val (TIKTOK_CLIENT_KEY env));
         ("client_secret", env_val (TIKTOK_CLIENT_SECRET env));
         ("code", c);
         ("grant_type", JStr "authorization_code");
         ("redirect_uri", env_val (TIKTOK_REDIRECT_URI env));
         ("code_verifier", cv) ])
    form_headers.

(** The characters that [n] calls of [Math.random()] pick, from the
    [k]-th call on. *)
Fixpoint random_chars (n k : nat) : string :=
  match n with
  | O => EmptyString
  | S n' =>
      charAt characters
        (Qfloor (Math_random_source k * inject_Z (Z.of_nat (String.length characters))))
      ++ random_chars n' (S k)
  end.

(** *** [POST /video/upload], the variant that pulls the video from a URL

    The second copy of the server differs from the first in this handler
    only: it downloads the video instead of reading an uploaded file. *)

(** [Buffer.from(x)]: the bytes of a buffer or a string; a [TypeError] on
    anything else a reply can hold here. *)
Definition Buffer_from (v : jsval) : Outcome string :=
  match v with
  | JStr bytes => Ok bytes
  | _ => Throw (Error "The first argument must be of type string or an instance of Buffer, ArrayBuffer, or Array or an Array-like Object.")
  end.

Definition MB500 : Z := 500 * 1024 * 1024.

(** The download of the video. *)
Definition download_request (video_url : jsval) : Request :=
  mkRequest GET video_url NoBody [].

(** [await axios.get(u, { responseType: 'arraybuffer', maxContentLength })]:
    axios rejects a reply whose content is longer than the limit. *)
Definition axios_get_arraybuffer (u : jsval) (maxContentLength : Z) : M AxiosResponse :=
  do r <- axios (download_request u);
  match data r with
  | JStr bytes =>
      if (maxContentLength <? Z.of_nat (String.length bytes))%Z
      then throw (Error ("maxContentLength size of " ++ string_of_Z maxContentLength
                           ++ " exceeded"))
      else ret r
  | _ => ret r
  end.

(** The init request of the URL variant: one chunk of the whole size. *)
Definition url_init_request (access_token : jsval) (videoSize : Z) : Request :=
  mkRequest POST (JStr "https://open.tiktokapis.com/v2/post/publish/inbox/video/init/")
    (Json (JObj [("source_info", source_info videoSize videoSize (JNum 1))]))
    (bearer_json access_token).

Definition video_upload_from_url (req : Req) : M Response :=
  try_catch
    (do access_token <- getValidAccessToken;
     do video_url <- prop (reqbody req) "video_url";
     do post_info <- prop (reqbody req) "post_info";
     if negb (truthy video_url) then
       ret (json 400 (JObj [("error", JStr "video_url is required")]))
     else
       do videoResponse <- axios_get_arraybuffer video_url MB500;
       do videoBuffer <- lift (Buffer_from (data videoResponse));
       let videoSize := Z.of_nat (String.length videoBuffer) in
       do initResponse <- axios_post
            (JStr "https://open.tiktokapis.com/v2/post/publish/inbox/video/init/")
            (Json (JObj [("source_info", source_info videoSize videoSize (JNum 1))]))
            (bearer_json access_token);
       do error <- prop (data initResponse) "error";
       do failed <- (if truthy error
                     then do c <- prop error "code"; ret (not_ok c)
                     else ret false);
       if failed then
         do msg <- prop error "message";
         throw (Error ("TikTok API Error: " ++ to_string msg))
       else
         do d <- prop (data initResponse) "data";
         do publish_id <- prop d "publish_id";
         do upload_url <- prop d "upload_url";
         do uploaded <- axios_put upload_url (Raw videoBuffer) (upload_headers videoSize);
         ret (json 200 (JObj
                [ ("success", JBool true);
                  ("message", JStr "Video uploaded to TikTok inbox successfully");
                  ("data", JObj
                     [ ("publish_id", publish_id);
                       ("video_size_mb", JStr (toFixed2_MB videoSize));
                       ("note", JStr "Video is in your TikTok inbox. Open TikTok app to complete posting.") ]) ])))
    (fun err => ret (failure "Video upload failed" err)).

(** The init request of [/video/direct-post] for the title [title] and a
    file of [fileSize] bytes. *)
Definition direct_post_init_request (access_token title : jsval) (fileSize : Z) : Request :=
  let chunkSize := if (fileSize <? MiB10)%Z then fileSize else MiB10 in
  let totalChunkCount := Math_ceil_div fileSize chunkSize in
  mkRequest POST (JStr "https://open.tiktokapis.com/v2/post/publish/video/init/")
    (Json (JObj
       [ ("post_info", JObj
            [ ("title", title);
              ("privacy_level", JStr "PUBLIC_TO_EVERYONE");
              ("disable_duet", JBool false);
              ("disable_comment", JBool false);
              ("disable_stitch", JBool false);
              ("video_cover_timestamp_ms", JNum 1000) ]);
         ("source_info", source_info fileSize chunkSize totalChunkCount) ]))
    (bearer_json access_token).

(** What is read back after a record was saved whose [expires_at] was
    [NaN]: JSON has no [NaN], it is written as [null]. *)
Definition record_without_expiry (a r : string) : jsval :=
  JObj [ ("access_token", JStr a);
         ("refresh_token", JStr r);
         ("expires_at", JNull) ].

Definition record_without_expiry_text (a r : string) : string :=
  "{" ++ Json.quote "access_token" ++ ":" ++ Json.quote a ++ String ","
    (Json.quote "refresh_token" ++ ":" ++ Json.quote r ++ String ","
       (Json.quote "expires_at" ++ ":" ++ "null" ++ String "}" EmptyString)).




(** *** Upstream calls and how they settle *)

(** The init reply [r] of an upload handler is accepted and names the
    upload URL [u]: the test
    [initResponse.data.error && initResponse.data.error.code !== 'ok'] does
    not fire, and [initResponse.data.data] can be destructured. *)
Definition init_accepted (r : AxiosResponse) (u : jsval) : Prop :=
  exists err d,
    get_prop (data r) "error" = Ok err /\
    (truthy err = false \/ exists c, get_prop err "code" = Ok c /\ not_ok c = false) /\
    get_prop (data r) "data" = Ok d /\
    get_prop d "upload_url" = Ok u.

(** The refresh grant among the calls of a proxy handler: the only POST
    to the token endpoint. *)
Definition is_refresh_grant (rq : Request) : bool :=
  match method rq, url rq with
  | POST, JStr u => String.eqb u "https://open.tiktokapis.com/v2/oauth/token/"
  | _, _ => false
  end.

(** The proxy handlers of both copies of the server, each with the
    response of its [catch] block. *)
Definition proxy_handlers : list ((Req -> M Response) * (JsError -> Response)) :=
  [ (creator_info, fun _ => send 500 "API call failed");
    (user_info, failure "User info request failed");
    (video_direct_post, failure "Video upload failed");
    (video_status, failure "Status check failed");
    (video_upload, failure "Video upload failed");
    (video_upload_from_url, failure "Video upload failed") ].

(** How a handler answers rejected calls: it always answers; of the calls
    it has made, a rejected one is the last, and the answer is that of its
    [catch] block for the error of the call, or for the 're-authenticate'
    error when the call was the refresh grant. *)
Definition relays_rejections
  (h : Req -> M Response) (on_error : JsError -> Response) : Prop :=
  forall w req,
  exists resp w' new,
    h req w = (Ok resp, w') /\
    sent w' = (sent w ++ new)%list /\
    forall l rq l' e,
      new = (l ++ rq :: l')%list ->
      result (platform (sent w ++ l) rq) = Rejected e ->
      l' = [] /\
      resp = on_error (if is_refresh_grant rq then Error refresh_failed_message else e).

(** ** Properties *)

Arguments Sha256.sha256_hex : simpl never.
Arguments Json.stringify : simpl never.
Arguments Json.parse : simpl never.

(** *** Stepping through handler code *)

Lemma bind_ok {A B} (m : M A) (k : A -> M B) w a w' :
  m w = (Ok a, w') -> bind m k w = k a w'.
Proof. intros H. unfold bind. now rewrite H. Qed.

(** *** Token storage leaves the rest of the state alone *)

Lemma loadTokens_world w : snd (loadTokens w) = w.
Proof.
  unfold loadTokens. destruct (fs w !! token_path); [|reflexivity].
  destruct (decrypt _ _); [|reflexivity].
  now destruct (Json.parse _).
Qed.

Lemma loadTokens_absent w :
  fs w !! token_path = None -> loadTokens w = (Ok JNull, w).
Proof. intros H. unfold loadTokens. now rewrite H. Qed.

Lemma saveTokens_sent v w : sent (snd (saveTokens v w)) = sent w.
Proof. unfold saveTokens. now destruct (Json.stringify v). Qed.


(** Case analysis on the scrutinee of the innermost pending [match]. *)
Ltac step :=
  match goal with
  | |- context [match ?x with _ => _ end] =>
      lazymatch x with
      | context [match _ with _ => _ end] => fail
      | _ => destruct x eqn:?
      end
  end.

Ltac unfold_js :=
  unfold bind, try_catch, prop, lift, Date_now, gets, modify, throw, ret,
    axios_post, axios_get, axios_put, axios.

(** The refresher makes at most one outbound call, the refresh grant. *)
Lemma getValidAccessToken_sent w :
  sent (snd (getValidAccessToken w)) = sent w \/
  exists rt, sent (snd (getValidAccessToken w)) = (sent w ++ [refresh_request rt])%list.
Proof.
  unfold getValidAccessToken. unfold_js.
  pose proof (loadTokens_world w) as Hl.
  destruct (loadTokens w) as [[tokens|e] w0]; simpl in Hl; subst w0.
  2: now left.
  repeat step; simpl; auto.
  all: right; eexists; unfold refresh_request.
  all: try reflexivity.
  all: match goal with
       | H : saveTokens ?v ?w1 = (_, ?w2) |- _ =>
           pose proof (saveTokens_sent v w1) as Hs; rewrite H in Hs; simpl in Hs;
           rewrite Hs; reflexivity
       end.
Qed.

Lemma cons_app_neq {A} (l : list A) x : (l ++ [x])%list <> l.
Proof.
  intros H. apply (f_equal (@List.length A)) in H.
  rewrite List.length_app in H. simpl in H. lia.
Qed.

(** C6: with no token file (first run), [getValidAccessToken] throws the
    'No tokens available' error, whose message sends the operator to
    [/auth/login] and differs from the message of a failed refresh, and it
    leaves the state as it was: no request goes out. *)
Theorem getValidAccessToken_not_yet_authenticated (w : World) :
  fs w !! token_path = None ->
  getValidAccessToken w =
    (Throw (Error ("No tokens available. Please complete OAuth flow first. Visit http://localhost:"
                     ++ port ++ "/auth/login")), w)
  /\ sent (snd (getValidAccessToken w)) = sent w
  /\ no_tokens_message <> refresh_failed_message.
Proof.
  intros Habsent.
  assert (E : getValidAccessToken w = (Throw (Error no_tokens_message), w)).
  { unfold getValidAccessToken.
    rewrite (bind_ok _ _ _ _ _ (loadTokens_absent w Habsent)). reflexivity. }
  split; [exact E|]. split; [now rewrite E|].
  unfold no_tokens_message, refresh_failed_message. simpl. discriminate.
Qed.

(** C1: for a persisted record [TokenRecord a r e], [getValidAccessToken]
    returns the stored access token and leaves the state untouched (nothing
    is sent) exactly when [now < e - 60000]; otherwise it posts the refresh
    grant to the token endpoint.  At [e = now + 61000] the record is valid,
    at [e = now + 59000] a refresh is attempted. *)
Theorem getValidAccessToken_expiry_margin (w : World) (a r : string) (e : Z) :
  fst (loadTokens w) = Ok (TokenRecord a r e) ->
  ((clock w < e - 60 * 1000)%Z <-> getValidAccessToken w = (Ok (JStr a), w))
  /\ ((e - 60 * 1000 <= clock w)%Z <->
        sent (snd (getValidAccessToken w)) = (sent w ++ [refresh_request (JStr r)])%list)
  /\ (e = (clock w + 61 * 1000)%Z -> getValidAccessToken w = (Ok (JStr a), w))
  /\ (e = (clock w + 59 * 1000)%Z ->
        sent (snd (getValidAccessToken w)) = (sent w ++ [refresh_request (JStr r)])%list).
Proof.
  intros Hload.
  assert (L : loadTokens w = (Ok (TokenRecord a r e), w)).
  { pose proof (loadTokens_world w). destruct (loadTokens w); simpl in *; congruence. }
  assert (Valid : (clock w < e - 60 * 1000)%Z -> getValidAccessToken w = (Ok (JStr a), w)).
  { intros Hlt. unfold getValidAccessToken.
    rewrite (bind_ok _ _ _ _ _ L). simpl. unfold_js. simpl.
    unfold js_lt, js_sub, arith. simpl.
    match goal with |- context [(?x <? ?y)%Z] => destruct (Z.ltb_spec x y) end; [reflexivity|lia]. }
  assert (Stale : (e - 60 * 1000 <= clock w)%Z ->
            sent (snd (getValidAccessToken w)) = (sent w ++ [refresh_request (JStr r)])%list).
  { intros Hge. unfold getValidAccessToken.
    rewrite (bind_ok _ _ _ _ _ L). simpl. unfold_js. simpl.
    unfold js_lt, js_sub, arith. simpl.
    match goal with |- context [(?x <? ?y)%Z] => destruct (Z.ltb_spec x y) end; [lia|].
    repeat step; simpl; try reflexivity.
    all: match goal with
         | H : saveTokens ?v ?w1 = (_, ?w2) |- _ =>
             pose proof (saveTokens_sent v w1) as Hs; rewrite H in Hs; simpl in Hs;
             rewrite Hs; reflexivity
         end. }
  repeat split.
  - exact Valid.
  - intros E. destruct (Z.lt_ge_cases (clock w) (e - 60 * 1000)) as [|Hge]; [assumption|].
    apply Stale in Hge. rewrite E in Hge. simpl in Hge.
    symmetry in Hge. now apply cons_app_neq in Hge.
  - exact Stale.
  - intros E. destruct (Z.lt_ge_cases (clock w) (e - 60 * 1000)) as [Hlt|]; [|assumption].
    apply Valid in Hlt. rewrite Hlt in E. simpl in E.
    symmetry in E. now apply cons_app_neq in E.
  - intros ->. apply Valid. lia.
  - intros ->. apply Stale. lia.
Qed.

(** C4, as the code has it: [/user/info] asks for a token before it looks
    at the query.  Without [fields] it answers 400 with the descriptive
    message once [getValidAccessToken] has returned; when
    [getValidAccessToken] throws it answers 500 with that error. *)
Theorem user_info_missing_fields (w : World) (req : Req) :
  obj_get (query req) "fields" = JUndefined ->
  (forall t w1, getValidAccessToken w = (Ok t, w1) ->
     user_info req w = (Ok fields_required, w1))
  /\ (forall e w1, getValidAccessToken w = (Throw e, w1) ->
     user_info req w = (Ok (failure "User info request failed" e), w1)).
Proof.
  intros Hq. split; intros x w1 Hg; unfold user_info, try_catch, bind; rewrite Hg.
  - rewrite Hq. reflexivity.
  - reflexivity.
Qed.

(** The clean-up never throws, keeps the log of calls, and leaves no file
    under the path of the upload. *)
Lemma cleanup_temp_file_ok req w :
  exists w', cleanup_temp_file req w = (Ok tt, w') /\
    sent w' = sent w /\
    (forall f, file req = Some f -> path f <> EmptyString -> fs w' !! path f = None).
Proof.
  unfold cleanup_temp_file. destruct (file req) as [f|].
  2:{ exists w. repeat split. intros; discriminate. }
  simpl. destruct (String.eqb_spec (path f) EmptyString) as [E|NE]; simpl.
  { exists w. repeat split. intros f' [= <-] H. contradiction. }
  unfold bind, existsSync, gets, unlinkSync, ret.
  case_bool_decide as Hs.
  - destruct Hs as [x Hx]. rewrite Hx. eexists. repeat split.
    intros f' [= <-] _. simpl. apply lookup_delete_eq.
  - exists w. repeat split. intros f' [= <-] _.
    destruct (fs w !! path f) eqn:E; [|reflexivity]. exfalso. apply Hs. eauto.
Qed.

(** The refresher's one call: when it returns, the refresh grant (if
    sent) resolved; when it throws after sending it, the error is the
    're-authenticate' one. *)
Lemma getValidAccessToken_calls w o w1 :
  getValidAccessToken w = (o, w1) ->
  sent w1 = sent w \/
  exists rt,
    sent w1 = (sent w ++ [refresh_request rt])%list /\
    match o with
    | Ok _ => exists r, result (platform (sent w) (refresh_request rt)) = Resolved r
    | Throw e => e = Error refresh_failed_message
    end.
Proof.
  assert (G : match getValidAccessToken w with
              | (o, w1) =>
                  sent w1 = sent w \/
                  exists rt,
                    sent w1 = (sent w ++ [refresh_request rt])%list /\
                    match o with
                    | Ok _ =>
                        exists r, result (platform (sent w) (refresh_request rt)) = Resolved r
                    | Throw e => e = Error refresh_failed_message
                    end
              end).
  { unfold getValidAccessToken. unfold_js.
    pose proof (loadTokens_world w) as Hl.
    destruct (loadTokens w) as [[tokens|e] w0]; simpl in Hl; subst w0.
    2: now left.
    repeat step; cbn [fst snd sent]; auto.
    all: right; eexists; unfold refresh_request.
    all: try match goal with
         | H : saveTokens ?v ?w1 = (_, ?w2) |- _ =>
             pose proof (saveTokens_sent v w1) as Hs; rewrite H in Hs; cbn [snd sent] in Hs;
             rewrite Hs
         end.
    all: (split; [reflexivity|]); eauto. }
  intros H. rewrite H in G. exact G.
Qed.

(** Taking a list of calls apart at one of them. *)
Lemma app_snoc2 {A} (l : list A) a b r :
  (l ++ a :: b :: r)%list = ((l ++ [a]) ++ b :: r)%list.
Proof. now rewrite <- app_assoc. Qed.

Ltac decompose_calls H :=
  lazymatch type of H with
  | [] = (?l ++ _ :: _)%list => destruct l; discriminate H
  | (_ :: _) = (?l ++ _ :: _)%list =>
      let x := fresh "x" in
      destruct l as [|x l]; cbn [app] in H;
      [ injection H as <- <-
      | injection H as <- H; decompose_calls H ]
  end.

Ltac tidy :=
  repeat match goal with
         | |- context [sent (mkWorld ?a ?b ?c ?d ?e)] =>
             change (sent (mkWorld a b c d e)) with e
         end.

Ltac tidy_hyps :=
  repeat match goal with
         | H : context [sent (mkWorld ?a ?b ?c ?d ?e)] |- _ =>
             change (sent (mkWorld a b c d e)) with e in H
         end.

(** After the handler's code has been stepped through: the calls of the
    refresher [Hc] come first, then the handler's own; every rejected one
    is either contradicted by the branch or the one the branch caught. *)
Ltac settle_calls Hc :=
  tidy_hyps;
  let Hs := fresh "Hs" in let rt := fresh "rt" in let Hr := fresh "Hr" in
  destruct Hc as [Hs|(rt & Hs & Hr)];
  do 3 eexists; (split; [reflexivity|]); unfold set_fs;
  repeat first
    [ progress tidy
    | match goal with H : sent ?x = _ |- context [sent ?x] => rewrite H end ];
  rewrite <- ?app_assoc; cbn [app];
  (split; [first [reflexivity | symmetry; apply app_nil_r]|]);
  let l := fresh "l" in let rq := fresh "rq" in let l' := fresh "l'" in
  let e := fresh "e" in let Hnew := fresh "Hnew" in let Hrej := fresh "Hrej" in
  intros l rq l' e Hnew Hrej;
  decompose_calls Hnew;
  cbn [app] in Hrej; rewrite ?app_snoc2 in Hrej; rewrite ?app_nil_r in Hrej;
  rewrite <- ?Hs in Hrej;
  first
    [ exfalso; first [congruence | destruct Hr; congruence]
    | split; [reflexivity|];
      cbn [is_refresh_grant refresh_request download_request method url token_endpoint String.eqb Ascii.eqb
           Bool.eqb];
      congruence ].

Section Rejections.

#[local] Arguments String.append : simpl never.

Ltac simple_proxy_rejections :=
  let Hg := fresh "Hg" in let Hc := fresh "Hc" in
  intros w req; unfold try_catch; unfold bind at 1;
  destruct (getValidAccessToken w) as [[t|e0] w1] eqn:Hg;
  pose proof (getValidAccessToken_calls _ _ _ Hg) as Hc;
  unfold_js; repeat step; settle_calls Hc.

Lemma creator_info_rejections :
  relays_rejections creator_info (fun _ => send 500 "API call failed").
Proof. unfold creator_info. simple_proxy_rejections. Qed.

Lemma user_info_rejections :
  relays_rejections user_info (failure "User info request failed").
Proof. unfold user_info. simple_proxy_rejections. Qed.

Lemma video_status_rejections :
  relays_rejections video_status (failure "Status check failed").
Proof. unfold video_status. simple_proxy_rejections. Qed.

Lemma video_direct_post_rejections :
  relays_rejections video_direct_post (failure "Video upload failed").
Proof.
  intros w req.
  unfold video_direct_post, try_catch. unfold bind at 1.
  destruct (getValidAccessToken w) as [[t|e0] w1] eqn:Hg;
    pose proof (getValidAccessToken_calls _ _ _ Hg) as Hc.
  all: unfold_js; unfold readFileSync, existsSync, gets.
  all: repeat step; settle_calls Hc.
Qed.

Lemma video_upload_from_url_rejections :
  relays_rejections video_upload_from_url (failure "Video upload failed").
Proof.
  intros w req.
  unfold video_upload_from_url, try_catch. unfold bind at 1.
  destruct (getValidAccessToken w) as [[t|e0] w1] eqn:Hg;
    pose proof (getValidAccessToken_calls _ _ _ Hg) as Hc.
  all: unfold_js; unfold axios_get_arraybuffer, Buffer_from; unfold_js.
  all: repeat step; settle_calls Hc.
Qed.

Lemma video_upload_rejections :
  relays_rejections video_upload (failure "Video upload failed").
Proof.
  intros w req.
  unfold video_upload, try_catch.
  destruct (file req) as [f|] eqn:Hf.
  2:{ unfold ret. exists (json 400 (JObj [("error", JStr "No video file uploaded")])), w, [].
      split; [reflexivity|]. split; [now rewrite app_nil_r|].
      intros l rq l' e H. destruct l; discriminate H. }
  unfold bind at 1 2.
  destruct (getValidAccessToken w) as [[t|e0] w1] eqn:Hg;
    pose proof (getValidAccessToken_calls _ _ _ Hg) as Hc.
  all: unfold_js; unfold readFileSync, unlinkSync.
  all: repeat step.
  all: try match goal with
       | H : cleanup_temp_file ?r ?w0 = (_, ?w2) |- _ =>
           let Hk := fresh "Hk" in
           destruct (cleanup_temp_file_ok r w0) as (w3 & Hk & Hsent & _);
           rewrite Hk in H; injection H as <- <- || discriminate H;
           tidy_hyps
       end.
  all: settle_calls Hc.
Qed.

End Rejections.

(** C5, as the code has it.  A rejected upstream call (HTTP failure) is
    answered with 500 by every proxy handler, of both copies of the
    server, whichever of its calls it is (the query, the download, the
    init call or the PUT), and no further call is made.  All handlers but
    [/creator-info] put the details of the upstream error
    ([err.response.data], else the message) in the [details] field;
    [/creator-info] sends the fixed text 'API call failed'.  When the
    rejected call is the refresh grant of [getValidAccessToken], the
    details are the fixed 're-authenticate' message, not those of the
    platform.  A call that resolves is not a failure for [/creator-info],
    [/user/info] and [/video/status]: with a token in hand its body is
    relayed with 200 whatever it says.  The three upload handlers look at
    the reply to their init call: an error object whose code is not 'ok'
    is answered with 500 and 'TikTok API Error: ' followed by the
    platform's message, and no PUT is made. *)
Theorem upstream_failure_responses (w : World) (req : Req) :
  (forall h on_error, In (h, on_error) proxy_handlers ->
     (forall e, code (on_error e) = 500%Z) /\
     exists resp w' new,
       h req w = (Ok resp, w') /\
       sent w' = (sent w ++ new)%list /\
       forall l rq l' e,
         new = (l ++ rq :: l')%list ->
         result (platform (sent w ++ l) rq) = Rejected e ->
         l' = [] /\
         resp = on_error (if is_refresh_grant rq then Error refresh_failed_message else e))
  /\ (forall rt, is_refresh_grant (refresh_request rt) = true)
  /\ (forall what m d, truthy d = true ->
        failure what (mkError m (Some d))
        = json 500 (JObj [("error", JStr what); ("details", d)]))
  /\ (forall what m,
        failure what (mkError m None)
        = json 500 (JObj [("error", JStr what); ("details", JStr m)]))
  /\ (forall t w1 r, getValidAccessToken w = (Ok t, w1) ->
        result (platform (sent w1) (creator_info_request t)) = Resolved r ->
        fst (creator_info req w) = Ok (json 200 (data r)))
  /\ (forall t w1 r, getValidAccessToken w = (Ok t, w1) ->
        truthy (obj_get (query req) "fields") = true ->
        result (platform (sent w1) (user_info_request t (obj_get (query req) "fields")))
          = Resolved r ->
        fst (user_info req w) = Ok (json 200 (data r)))
  /\ (forall t w1 r, getValidAccessToken w = (Ok t, w1) ->
        truthy (obj_get (query req) "publish_id") = true ->
        result (platform (sent w1)
                  (video_status_request t (obj_get (query req) "publish_id")))
          = Resolved r ->
        fst (video_status req w) = Ok (json 200 (data r)))
  /\ (forall t w1 f r err c m, getValidAccessToken w = (Ok t, w1) ->
        file req = Some f ->
        is_Some (fs w1 !! path f) ->
        result (platform (sent w1) (inbox_init_request t (size f))) = Resolved r ->
        get_prop (data r) "error" = Ok err -> truthy err = true ->
        get_prop err "code" = Ok c -> not_ok c = true ->
        get_prop err "message" = Ok m ->
        exists w',
          video_upload req w
          = (Ok (failure "Video upload failed" (Error ("TikTok API Error: " ++ to_string m))),
             w') /\
          sent w' = (sent w1 ++ [inbox_init_request t (size f)])%list)
  /\ (forall t w1 body p bytes r err c m, getValidAccessToken w = (Ok t, w1) ->
        reqbody req = JObj body ->
        obj_get body "file_path" = JStr p -> p <> EmptyString ->
        truthy (obj_get body "title") = true ->
        fs w1 !! p = Some bytes ->
        let init := direct_post_init_request t (obj_get body "title")
                      (Z.of_nat (String.length bytes)) in
        result (platform (sent w1) init) = Resolved r ->
        get_prop (data r) "error" = Ok err -> truthy err = true ->
        get_prop err "code" = Ok c -> not_ok c = true ->
        get_prop err "message" = Ok m ->
        exists w',
          video_direct_post req w
          = (Ok (failure "Video upload failed" (Error ("TikTok API Error: " ++ to_string m))),
             w') /\
          sent w' = (sent w1 ++ [init])%list)
  /\ (forall t w1 body r0 bytes r err c m, getValidAccessToken w = (Ok t, w1) ->
        reqbody req = JObj body ->
        truthy (obj_get body "video_url") = true ->
        let download := download_request (obj_get body "video_url") in
        result (platform (sent w1) download) = Resolved r0 ->
        data r0 = JStr bytes ->
        (Z.of_nat (String.length bytes) <= MB500)%Z ->
        let init := url_init_request t (Z.of_nat (String.length bytes)) in
        result (platform (sent w1 ++ [download]) init) = Resolved r ->
        get_prop (data r) "error" = Ok err -> truthy err = true ->
        get_prop err "code" = Ok c -> not_ok c = true ->
        get_prop err "message" = Ok m ->
        exists w',
          video_upload_from_url req w
          = (Ok (failure "Video upload failed" (Error ("TikTok API Error: " ++ to_string m))),
             w') /\
          sent w' = (sent w1 ++ [download; init])%list).
Proof.
  repeat match goal with |- _ /\ _ => split end.
  - intros h on_error Hin. cbn [In proxy_handlers] in Hin.
    destruct Hin as [[= <- <-]|[[= <- <-]|[[= <- <-]|[[= <- <-]|[[= <- <-]|[[= <- <-]|[]]]]]]];
      (split; [reflexivity|]).
    + apply creator_info_rejections.
    + apply user_info_rejections.
    + apply video_direct_post_rejections.
    + apply video_status_rejections.
    + apply video_upload_rejections.
    + apply video_upload_from_url_rejections.
  - reflexivity.
  - intros what m d Hd. unfold failure, error_details, js_or. cbn [response_data].
    now rewrite Hd.
  - reflexivity.
  - intros t w1 r Hg Hr. unfold creator_info, try_catch, bind. rewrite Hg.
    unfold_js. fold (creator_info_request t). now rewrite Hr.
  - intros t w1 r Hg Hf Hr. unfold user_info, try_catch, bind. rewrite Hg, Hf. cbn [negb].
    unfold_js. fold (user_info_request t (obj_get (query req) "fields")).
    now rewrite Hr.
  - intros t w1 r Hg Hf Hr. unfold video_status, try_catch, bind. rewrite Hg, Hf. cbn [negb].
    unfold_js. fold (video_status_request t (obj_get (query req) "publish_id")).
    now rewrite Hr.
  - intros t w1 f r err c m Hg Hf [x Hx] Hr He Ht Hc Hn Hm.
    unfold video_upload, try_catch, bind. rewrite Hf, Hg.
    unfold_js. fold (inbox_init_request t (size f)). rewrite Hr. simpl.
    rewrite He, Ht, Hc. simpl. rewrite Hn. unfold unlinkSync at 1. simpl.
    rewrite Hx, Hm. simpl.
    match goal with |- context [cleanup_temp_file req ?w0] =>
      destruct (cleanup_temp_file_ok req w0) as (w2 & -> & Hsent & _) end.
    eexists. split; [reflexivity|]. exact Hsent.
  - intros t w1 body p bytes r err c m Hg Hb Hp Hne Htt Hfile init Hr He Ht Hc Hn Hm.
    assert (Hpt : truthy (JStr p) = true).
    { cbn. destruct (String.eqb_spec p EmptyString); [contradiction|reflexivity]. }
    unfold video_direct_post, try_catch. unfold bind at 1. rewrite Hg.
    unfold_js. rewrite Hb. cbn [get_prop]. rewrite Hp, Hpt, Htt. cbn [negb to_string].
    unfold existsSync, gets, readFileSync. rewrite Hfile.
    case_bool_decide as Hs; [|exfalso; apply Hs; eauto]. cbn [negb].
    cbv beta iota zeta. rewrite Hfile. cbv beta iota zeta.
    fold (direct_post_init_request t (obj_get body "title")
            (Z.of_nat (String.length bytes))).
    fold init. rewrite Hr. cbv beta iota. rewrite He. cbv beta iota. rewrite Ht, Hc.
    cbv beta iota. rewrite Hn, Hm. cbv beta iota.
    eexists. split; reflexivity.
  - intros t w1 body r0 bytes r err c m Hg Hb Hv download Hd Hdata Hsize init
      Hr He Ht Hc Hn Hm.
    unfold video_upload_from_url, try_catch. unfold bind at 1. rewrite Hg.
    unfold_js. rewrite Hb. cbn [get_prop]. rewrite Hv. cbn [negb].
    unfold axios_get_arraybuffer, Buffer_from. unfold_js. fold download.
    rewrite Hd. cbv beta iota. rewrite Hdata.
    destruct (Z.ltb_spec MB500 (Z.of_nat (String.length bytes))) as [Hbig|_]; [lia|].
    cbv beta iota. rewrite Hdata. cbv beta iota zeta.
    fold (url_init_request t (Z.of_nat (String.length bytes))). fold init.
    cbn [sent]. rewrite Hr. cbv beta iota. rewrite He. cbv beta iota. rewrite Ht, Hc.
    cbv beta iota. rewrite Hn, Hm. cbv beta iota.
    eexists. split; [reflexivity|]. cbn [sent]. now rewrite <- app_assoc.
Qed.

(** *** PKCE strings *)

Lemma all_chars_app p s t :
  all_chars p (s ++ t) = all_chars p s && all_chars p t.
Proof. induction s as [|c s IH]; simpl; [reflexivity|]. now rewrite IH, andb_assoc. Qed.

Lemma string_app_assoc (s t u : string) : (s ++ t) ++ u = s ++ (t ++ u).
Proof. induction s as [|c s IH]; simpl; [reflexivity|]. now rewrite IH. Qed.

Lemma string_app_nil_r (s : string) : s ++ EmptyString = s.
Proof. induction s as [|c s IH]; simpl; [reflexivity|]. now rewrite IH. Qed.

(** [charAt] on an index inside the alphabet gives one of its characters. *)
Lemma charAt_characters (i : Z) :
  (0 <= i < 66)%Z ->
  exists c, charAt characters i = String c EmptyString /\ verifier_char c = true.
Proof.
  intros [H0 H1]. unfold charAt.
  destruct (Z.ltb_spec i 0); [lia|].
  assert (Hk : (Z.to_nat i < 66)%nat) by lia.
  generalize dependent (Z.to_nat i). intros k Hk.
  do 66 (destruct k as [|k]; [eexists; split; reflexivity|]).
  lia.
Qed.

(** [Math.floor(Math.random() * 66)] is an index of the alphabet. *)
Lemma random_index (r : Q) :
  (0 <= r)%Q -> (r < 1)%Q -> (0 <= Qfloor (r * inject_Z 66) < 66)%Z.
Proof.
  intros H0 H1. split.
  - rewrite <- (Qfloor_Z 0). apply Qfloor_resp_le.
    change (inject_Z 0) with (0 * inject_Z 66)%Q.
    apply Qmult_le_compat_r; [assumption|]. discriminate.
  - rewrite Zlt_Qlt. eapply Qle_lt_trans; [apply Qfloor_le|].
    apply Qlt_le_trans with (1 * inject_Z 66)%Q.
    + apply Qmult_lt_compat_r; [reflexivity|assumption].
    + rewrite Qmult_1_l. apply Qle_refl.
Qed.

(** The loop appends the characters picked by the next [n] draws. *)
Lemma generateRandomString_loop_eq (n : nat) :
  forall (acc : string) (w : World),
    generateRandomString_loop n acc w
    = (Ok (acc ++ random_chars n (draws w)), drawn n w).
Proof.
  induction n as [|n IH]; intros acc w.
  - cbn [generateRandomString_loop random_chars]. unfold ret, drawn.
    rewrite string_app_nil_r. now destruct w.
  - cbn [generateRandomString_loop random_chars]. unfold bind, Math_random.
    rewrite IH. cbn [draws]. rewrite string_app_assoc.
    f_equal. unfold drawn. cbn [codeVerifier fs clock draws sent].
    f_equal. lia.
Qed.

Lemma random_chars_spec (n : nat) :
  forall k, String.length (random_chars n k) = n /\
            all_chars verifier_char (random_chars n k) = true.
Proof.
  induction n as [|n IH]; intros k; [split; reflexivity|].
  cbn [random_chars].
  destruct (Math_random_range k) as [H0 H1].
  destruct (charAt_characters _ (random_index _ H0 H1)) as (c & Hc & Hv).
  change (Z.of_nat (String.length characters)) with 66%Z.
  rewrite Hc. destruct (IH (S k)) as [Hlen Hall].
  cbn [String.append String.length all_chars]. rewrite Hlen, Hv, Hall. auto.
Qed.

(** [generatePKCE] returns, draws 64 numbers and touches nothing else. *)
Lemma generatePKCE_eq (w : World) :
  generatePKCE w
  = (Ok (mkPkce (random_chars 64 (draws w))
                (Sha256.sha256_hex (random_chars 64 (draws w)))), drawn 64 w).
Proof.
  unfold generatePKCE, generateRandomString, bind.
  now rewrite generateRandomString_loop_eq.
Qed.

Lemma generatePKCE_spec (w : World) :
  exists v, generatePKCE w = (Ok (mkPkce v (Sha256.sha256_hex v)), drawn 64 w) /\
            String.length v = 64%nat /\ all_chars verifier_char v = true.
Proof.
  exists (random_chars 64 (draws w)). split; [apply generatePKCE_eq|].
  apply random_chars_spec.
Qed.

Lemma hexdigit_lower (n : N) : lower_hex_char (Json.hexdigit n) = true.
Proof.
  unfold Json.hexdigit. generalize (N.to_nat n). intros k.
  do 17 (destruct k as [|k]; [reflexivity|]). reflexivity.
Qed.

Lemma word_hex_lower (x : Z) : all_chars lower_hex_char (Sha256.word_hex x) = true.
Proof.
  unfold Sha256.word_hex, Sha256.nibble. cbn [all_chars].
  now rewrite !hexdigit_lower.
Qed.

(** A digest is 64 lower-case hexadecimal digits. *)
Lemma sha256_hex_length (s : string) : String.length (Sha256.sha256_hex s) = 64%nat.
Proof. reflexivity. Qed.

Lemma sha256_hex_lower (s : string) :
  all_chars lower_hex_char (Sha256.sha256_hex s) = true.
Proof.
  unfold Sha256.sha256_hex, Sha256.hex.
  now rewrite !all_chars_app, !word_hex_lower.
Qed.

Lemma lower_hex_unreserved (c : ascii) : lower_hex_char c = true -> is_unreserved c = true.
Proof.
  destruct c as [[] [] [] [] [] [] [] []]; vm_compute; intros; congruence.
Qed.

(** [querystring.escape] leaves a hexadecimal string as it is. *)
Lemma qs_escape_hex (s : string) :
  all_chars lower_hex_char s = true -> qs_escape s = s.
Proof.
  induction s as [|c s IH]; [reflexivity|]. cbn [all_chars qs_escape].
  intros H. apply andb_true_iff in H. destruct H as [Hc Hs].
  rewrite (lower_hex_unreserved _ Hc). now rewrite IH.
Qed.

Lemma generatePKCE_challenge (w w' : World) (p : Pkce) :
  generatePKCE w = (Ok p, w') -> challenge p = Sha256.sha256_hex (verifier p).
Proof.
  unfold generatePKCE, bind, ret.
  destruct (generateRandomString 64 w) as [[v|e] w1]; [|discriminate].
  now intros [= <- _].
Qed.

(** C10: [/auth/login] stores a verifier of exactly 64 characters, each of
    the 66-character alphabet (64 lies within the 43 to 128 that PKCE
    asks for), and redirects with [code_challenge] set to the SHA-256
    digest of that verifier written as 64 lower-case hexadecimal digits,
    and [code_challenge_method] set to 'S256'. *)
Theorem auth_login_pkce (w : World) (req : Req) :
  exists (v : string) (w' : World) (authUrl prefix : string),
    auth_login req w = (Ok (mkResponse 302 (Redirect (JStr authUrl))), w')
    /\ codeVerifier w' = JStr v
    /\ String.length v = 64%nat /\ (43 <= String.length v <= 128)%nat
    /\ all_chars verifier_char v = true
    /\ String.length characters = 66%nat
    /\ authUrl = "https://www.tiktok.com/v2/auth/authorize/?"
                   ++ qs_stringify (login_params (mkPkce v (Sha256.sha256_hex v)))
    /\ obj_get (login_params (mkPkce v (Sha256.sha256_hex v))) "code_challenge"
         = JStr (Sha256.sha256_hex v)
    /\ obj_get (login_params (mkPkce v (Sha256.sha256_hex v))) "code_challenge_method"
         = JStr "S256"
    /\ authUrl = prefix ++ "&code_challenge=" ++ Sha256.sha256_hex v
                   ++ "&code_challenge_method=S256"
    /\ String.length (Sha256.sha256_hex v) = 64%nat
    /\ all_chars lower_hex_char (Sha256.sha256_hex v) = true.
Proof.
  destruct (generatePKCE_spec w) as (v & Hg & Hlen & Hall).
  exists v, (set_codeVerifier (JStr v) (drawn 64 w)).
  eexists.
  exists ("https://www.tiktok.com/v2/auth/authorize/?"
            ++ qs_stringify (firstn 5 (login_params (mkPkce v (Sha256.sha256_hex v))))).
  split; [|split; [|split; [|split; [|split; [|split; [|split; [|split; [|split; [|split; [|split]]]]]]]]]].
  - unfold auth_login, bind. rewrite Hg. reflexivity.
  - reflexivity.
  - exact Hlen.
  - rewrite Hlen. lia.
  - exact Hall.
  - reflexivity.
  - reflexivity.
  - reflexivity.
  - reflexivity.
  - unfold login_params. cbn [firstn qs_stringify challenge stringifyPrimitive to_string].
    rewrite (qs_escape_hex _ (sha256_hex_lower v)).
    rewrite !string_app_assoc. reflexivity.
  - apply sha256_hex_length.
  - apply sha256_hex_lower.
Qed.

(** *** The pending verifier *)




(** *** [POST /video/upload] *)

(** C8: when a file was uploaded, the handler of [/video/upload] answers
    (200 or 500, it never throws) and no file is left under
    [req.file.path] afterwards, whichever step succeeded or failed. *)
Theorem video_upload_removes_temp_file
  (w : World) (q : list (string * jsval)) (b : jsval) (f : UploadedFile) :
  path f <> EmptyString ->
  exists resp w',
    video_upload (mkReq q b (Some f)) w = (Ok resp, w') /\
    fs w' !! path f = None /\
    (code resp = 200%Z \/ code resp = 500%Z).
Proof.
  intros Hpath. unfold video_upload. cbn [file]. unfold_js.
  unfold readFileSync, unlinkSync at 1 2.
  repeat step.
  all: cbn [fs set_fs] in *.
  all: try match goal with
       | H : cleanup_temp_file ?r ?w0 = _ |- _ =>
           destruct (cleanup_temp_file_ok r w0) as (w2 & Hc & _ & Hgone);
           rewrite Hc in H; injection H as <- <- || discriminate H;
           specialize (Hgone f eq_refl Hpath)
       end.
  all: eexists; eexists; (split; [reflexivity|]); cbn [code json failure fs set_fs].
  all: split; [|auto].
  all: try assumption.
  all: try apply lookup_delete_eq.
Qed.

Lemma chunk_size_min (s : Z) : (if (s <? MiB10)%Z then s else MiB10) = Z.min s MiB10.
Proof. destruct (Z.ltb_spec s MiB10); lia. Qed.

(** [Math.ceil(s / c)] is the least [k] with [s <= k * c]. *)
Lemma Math_ceil_div_spec (s c : Z) :
  (0 < c)%Z ->
  exists k, Math_ceil_div s c = JNum k /\ ((k - 1) * c < s <= k * c)%Z.
Proof.
  intros Hc. unfold Math_ceil_div.
  destruct (Z.eqb_spec c 0); [lia|].
  eexists. split; [reflexivity|].
  pose proof (Z.div_mod (- s) c ltac:(lia)).
  pose proof (Z.mod_pos_bound (- s) c Hc).
  nia.
Qed.

(** An object that cannot be read for one property cannot be read for
    another. *)
Lemma get_prop_throws (v : jsval) (k k' : string) (e : JsError) :
  get_prop v k = Throw e -> exists e', get_prop v k' = Throw e'.
Proof. destruct v; cbn; intros H; try discriminate H; eauto. Qed.

Lemma truthy_get_prop (v : jsval) (k : string) :
  truthy v = true -> exists x, get_prop v k = Ok x.
Proof. destruct v; cbn; intros H; try discriminate H; eauto. Qed.

(** C9, as the code has it.  For an uploaded video of [s] bytes: without
    a token nothing is sent.  With a token the handler posts to the init
    endpoint [chunk_size = min(s, 10 MiB)] and
    [total_chunk_count = Math.ceil(s / chunk_size)] (for [s > 0] the least
    [k] with [s <= k * chunk_size], above 1 once [s] exceeds 10 MiB).  After
    that it makes at most one call, and it makes it exactly when the init
    call resolved with an accepted reply and the upload can be read: one
    PUT of the whole file to the URL of the reply, with
    [Content-Range: bytes 0-(s-1)/s].  A rejected init call is answered
    with 500 and no PUT, and the answer is 200 exactly when the PUT was
    made and resolved. *)
Theorem video_upload_single_put
  (w w1 : World) (q : list (string * jsval)) (b : jsval) (f : UploadedFile)
  (o : Outcome jsval) :
  getValidAccessToken w = (o, w1) ->
  let s := size f in
  let chunk := Z.min s MiB10 in
  (exists resp w' new,
     video_upload (mkReq q b (Some f)) w = (Ok resp, w') /\
     sent w' = (sent w1 ++ new)%list /\
     match o with
     | Throw e => new = [] /\ resp = failure "Video upload failed" e
     | Ok t =>
         let init := inbox_init_request t s in
         exists rest,
           new = init :: rest /\
           (rest = [] \/
            exists u bytes, fs w1 !! path f = Some bytes /\
              rest = [mkRequest PUT u (Raw bytes) (upload_headers s)]) /\
           (forall r u bytes,
              result (platform (sent w1) init) = Resolved r ->
              init_accepted r u ->
              fs w1 !! path f = Some bytes ->
              rest = [mkRequest PUT u (Raw bytes) (upload_headers s)]) /\
           (rest <> [] ->
              exists r u, result (platform (sent w1) init) = Resolved r /\
                          init_accepted r u) /\
           (forall e, result (platform (sent w1) init) = Rejected e ->
              rest = [] /\ resp = failure "Video upload failed" e) /\
           (code resp = 200%Z <->
              exists put r', rest = [put] /\
                result (platform (sent w1 ++ [init]) put) = Resolved r')
     end)
  /\ (forall t, payload (inbox_init_request t s) =
       Json (JObj [("source_info",
               JObj [ ("source", JStr "FILE_UPLOAD");
                      ("video_size", JNum s);
                      ("chunk_size", JNum chunk);
                      ("total_chunk_count", Math_ceil_div s chunk) ])]))
  /\ ((0 < s)%Z ->
      exists k, Math_ceil_div s chunk = JNum k /\
                ((k - 1) * chunk < s <= k * chunk)%Z /\
                ((MiB10 < s)%Z -> (1 < k)%Z))
  /\ upload_headers s =
       [ ("Content-Range", "bytes 0-" ++ string_of_Z (s - 1) ++ "/" ++ string_of_Z s);
         ("Content-Type", "video/mp4");
         ("Content-Length", string_of_Z s) ].
Proof.
  intros Hg s chunk. split; [|split; [|split]].
  - unfold video_upload. cbn [file]. unfold bind at 1. unfold try_catch. unfold bind at 1.
    rewrite Hg. destruct o as [t|e0].
    2:{ cbv beta iota. unfold bind at 1.
        match goal with |- context [cleanup_temp_file ?r ?w0] =>
          destruct (cleanup_temp_file_ok r w0) as (w2 & Hc & Hsent & _) end.
        rewrite Hc. unfold ret. exists (failure "Video upload failed" e0), w2, [].
        split; [reflexivity|]. rewrite Hsent, app_nil_r. auto. }
    unfold_js. fold (inbox_init_request t (size f)). fold s.
    set (init := inbox_init_request t s).
    unfold readFileSync, unlinkSync at 1 2.
    repeat step.
    all: cbn [fs set_fs sent] in *.
    all: try match goal with
         | H1 : ?l = Some ?x, H2 : ?l = Some ?y |- _ =>
             rewrite H1 in H2; first [injection H2 as <- | injection H2 as ->]
         | H1 : ?l = Some _, H2 : ?l = None |- _ => rewrite H1 in H2; discriminate H2
         end.
    all: try match goal with
         | H : cleanup_temp_file ?r ?w0 = _ |- _ =>
             destruct (cleanup_temp_file_ok r w0) as (w2 & Hc & Hsent & _);
             rewrite Hc in H; injection H as <- <- || discriminate H;
             cbn [sent] in Hsent
         end.
    all: do 3 eexists; (split; [reflexivity|]); unfold set_fs; cbn [sent]; rewrite ?Hsent;
         rewrite <- ?app_assoc; cbn [app]; (split; [reflexivity|]).
    all: subst init; cbv zeta; eexists; (split; [reflexivity|]).
    all: split; [first [left; reflexivity
                       | right; do 2 eexists; split; [eassumption|reflexivity]]|].
    all: split;
      [ intros r' u' bytes' Hr' (err' & d' & He' & Hf' & Hd' & Hu') Hb';
        first
          [ congruence
          | exfalso; destruct Hf' as [Hf'|(c' & Hc' & Hn')]; congruence
          | exfalso;
            match goal with
            | H : get_prop ?v _ = Throw _ |- _ =>
                destruct (get_prop_throws v _ "upload_url" _ H); congruence
            | H : get_prop ?v _ = Throw _, T : truthy ?v = true |- _ =>
                destruct (truthy_get_prop v "code" T); congruence
            end ]
      | ].
    all: split;
      [ intros Hne;
        first
          [ exfalso; apply Hne; reflexivity
          | do 2 eexists; split; [reflexivity|]; unfold init_accepted;
            do 2 eexists; split; [eassumption|];
            split; [first [left; assumption | right; eexists; split; eassumption]|];
            split; eassumption ]
      | ].
    all: split;
      [ intros e' He'; first [exfalso; congruence | split; [reflexivity|congruence]]
      | ].
    all: cbn [code failure json]; split;
      [ intros H200;
        first [discriminate H200 | do 2 eexists; split; [reflexivity|eassumption]]
      | intros (put & r' & Hput & Hres);
        first [reflexivity | discriminate Hput | injection Hput as <-; congruence] ].
  - intros t. unfold inbox_init_request, source_info. cbn [payload].
    fold s. rewrite chunk_size_min. reflexivity.
  - intros Hs. assert (Hc : (0 < chunk)%Z) by (unfold chunk, MiB10; lia).
    destruct (Math_ceil_div_spec s chunk Hc) as (k & Hk & Hb).
    exists k. split; [assumption|]. split; [assumption|].
    intros Hbig. unfold chunk, MiB10 in *. lia.
  - reflexivity.
Qed.

(** *** The token file: JSON text and back *)

Lemma parse_string_body_quote (s rest : string) :
  Json.parse_string_body (Json.quote_body s ++ String Json.dquote rest) = Some (s, rest).
Proof.
  induction s as [|c s IH]; [reflexivity|].
  cbn [Json.quote_body].
  destruct c as [[] [] [] [] [] [] [] []]; simpl; rewrite ?IH; reflexivity.
Qed.

Lemma quote_app (s rest : string) :
  Json.quote s ++ rest = String Json.dquote (Json.quote_body s ++ String Json.dquote rest).
Proof.
  unfold Json.quote, Json.str1. cbn [String.append]. now rewrite string_app_assoc.
Qed.

(** A string literal reads back as the string. *)
Lemma parse_value_string (fuel : nat) (s rest : string) :
  Json.parse_value (S fuel) (Json.quote s ++ rest) = Some (JStr s, rest).
Proof.
  rewrite quote_app. cbn [Json.parse_value]. 
  change (Ascii.eqb Json.dquote Json.dquote) with true. cbv iota.
  now rewrite parse_string_body_quote.
Qed.

Lemma span_digits_uint (u : uint) (c : ascii) (r : string) :
  Json.is_digit c = false ->
  Json.span_digits (NilEmpty.string_of_uint u ++ String c r)
  = (NilEmpty.string_of_uint u, String c r).
Proof.
  intros Hc. induction u; cbn [NilEmpty.string_of_uint String.append Json.span_digits];
    try (change (Json.is_digit _) with true; cbv iota; now rewrite IHu).
  now rewrite Hc.
Qed.

Lemma parse_number_uint (neg : bool) (u : uint) (c : ascii) (r : string) :
  u <> Nil -> Json.leading_zero (NilEmpty.string_of_uint u) = false ->
  c = ","%char \/ c = "}"%char ->
  Json.parse_number
    ((if neg then String "-" (NilEmpty.string_of_uint u) else NilEmpty.string_of_uint u)
       ++ String c r)
  = Some (JNum (if neg then - Z.of_uint u else Z.of_uint u)%Z, String c r).
Proof.
  intros Hu Hz Hc.
  assert (Hd : Json.is_digit c = false) by (destruct Hc as [-> | ->]; reflexivity).
  assert (Hparse :
    (let (ds, rest) := Json.span_digits (NilEmpty.string_of_uint u ++ String c r) in
     if Json.leading_zero ds then None else
     match ds, NilEmpty.uint_of_string ds, rest with
     | EmptyString, _, _ => None
     | _, _, String "." _ | _, _, String "e" _ | _, _, String "E" _ => None
     | _, Some u', _ =>
         Some (JNum (if neg then - Z.of_uint u' else Z.of_uint u')%Z, rest)
     | _, None, _ => None
     end) = Some (JNum (if neg then - Z.of_uint u else Z.of_uint u)%Z, String c r)).
  { rewrite (span_digits_uint u c r Hd). cbv beta iota. rewrite Hz.
    pose proof (NilEmpty.usu u) as Hback.
    destruct (NilEmpty.string_of_uint u) eqn:E.
    - destruct u; try contradiction; discriminate E.
    - rewrite Hback. destruct Hc as [-> | ->]; reflexivity. }
  unfold Json.parse_number. destruct neg.
  - cbn [String.append]. exact Hparse.
  - destruct u; try contradiction; cbn [NilEmpty.string_of_uint String.append] in *;
      exact Hparse.
Qed.

(** A normalized decimal is the single zero or starts with another
    digit. *)
Lemma unorm_head (u : uint) :
  unorm u = D0 Nil \/
  match unorm u with Nil | D0 _ => False | _ => True end.
Proof.
  induction u; simpl; auto.
Qed.

(** The decimal form of a positive number does not start with a zero. *)
Lemma to_uint_no_leading_zero (p : positive) :
  Json.leading_zero (NilEmpty.string_of_uint (Pos.to_uint p)) = false.
Proof.
  assert (Hnorm : unorm (Pos.to_uint p) = Pos.to_uint p).
  { rewrite <- DecimalPos.Unsigned.to_of, DecimalPos.Unsigned.of_to. reflexivity. }
  rewrite <- Hnorm.
  destruct (unorm_head (Pos.to_uint p)) as [E|E].
  - now rewrite E.
  - destruct (unorm (Pos.to_uint p)); try contradiction; reflexivity.
Qed.

(** A printed integer reads back as the integer, when a comma or the
    closing brace follows it. *)
Lemma parse_number_print (z : Z) (c : ascii) (r : string) :
  c = ","%char \/ c = "}"%char ->
  Json.parse_number (string_of_Z z ++ String c r) = Some (JNum z, String c r).
Proof.
  intros Hc. unfold string_of_Z. destruct z as [|p|p]; cbn [Z.to_int].
  1: destruct Hc as [-> | ->]; reflexivity.
  all: pose proof (DecimalPos.Unsigned.to_uint_nonnil p) as Hn.
  all: pose proof (to_uint_no_leading_zero p) as Hlz.
  all: assert (Hz : Z.of_uint (Pos.to_uint p) = Z.pos p)
         by (unfold Z.of_uint; now rewrite DecimalPos.Unsigned.of_to).
  all: assert (Hs : NilZero.string_of_uint (Pos.to_uint p)
                    = NilEmpty.string_of_uint (Pos.to_uint p))
         by (unfold NilZero.string_of_uint; destruct (Pos.to_uint p);
             [contradiction|reflexivity..]).
  all: cbn [NilZero.string_of_int]; rewrite Hs.
  - rewrite <- Hz. now apply (parse_number_uint false).
  - change (Z.neg p) with (- Z.pos p)%Z. rewrite <- Hz.
    now apply (parse_number_uint true).
Qed.

Lemma parse_value_number (fuel : nat) (z : Z) (c : ascii) (r : string) :
  c = ","%char \/ c = "}"%char ->
  Json.parse_value (S fuel) (string_of_Z z ++ String c r) = Some (JNum z, String c r).
Proof.
  intros Hc. rewrite <- (parse_number_print z c r Hc).
  unfold string_of_Z.
  destruct z as [|p|p]; cbn [Z.to_int NilZero.string_of_int]; [reflexivity| |reflexivity].
  unfold NilZero.string_of_uint.
  destruct (Pos.to_uint p); reflexivity.
Qed.

Lemma parse_members_comma pv fuel acc k vtext v rest :
  pv (vtext ++ String "," rest) = Some (v, String "," rest) ->
  Json.parse_members pv (S fuel) acc (Json.quote k ++ ":" ++ vtext ++ String "," rest)
  = Json.parse_members pv fuel (obj_set acc k v) rest.
Proof.
  intros Hv. rewrite quote_app. cbn [Json.parse_members].
  change (Ascii.eqb Json.dquote Json.dquote) with true. cbv iota.
  rewrite parse_string_body_quote. cbn [String.append]. now rewrite Hv.
Qed.

Lemma parse_members_brace pv fuel acc k vtext v rest :
  pv (vtext ++ String "}" rest) = Some (v, String "}" rest) ->
  Json.parse_members pv (S fuel) acc (Json.quote k ++ ":" ++ vtext ++ String "}" rest)
  = Some (JObj (obj_set acc k v), rest).
Proof.
  intros Hv. rewrite quote_app. cbn [Json.parse_members].
  change (Ascii.eqb Json.dquote Json.dquote) with true. cbv iota.
  rewrite parse_string_body_quote. cbn [String.append]. now rewrite Hv.
Qed.

Lemma stringify_TokenRecord (a r : string) (e : Z) :
  Json.stringify (TokenRecord a r e) = Some (record_text a r e).
Proof.
  unfold TokenRecord, Json.stringify, Json.join_comma, record_text.
  f_equal. rewrite !string_app_assoc. reflexivity.
Qed.

Lemma parse_record_text (a r : string) (e : Z) :
  Json.parse (record_text a r e) = Some (TokenRecord a r e).
Proof.
  unfold Json.parse.
  destruct (String.length (record_text a r e)) as [|[|[|[|[|n]]]]] eqn:E;
    try (unfold record_text in E; rewrite quote_app in E; discriminate E).
  unfold record_text.
  assert (Hopen : forall rest,
            Json.parse_value (S (S (S (S (S n)))))
              ("{" ++ Json.quote "access_token" ++ rest)
            = Json.parse_members (Json.parse_value (S (S (S (S n)))))
                (S (S (S (S n)))) [] (Json.quote "access_token" ++ rest)).
  { intros rest. rewrite quote_app. reflexivity. }
  rewrite Hopen.
  rewrite (parse_members_comma _ _ _ _ _ (JStr a)) by apply parse_value_string.
  rewrite (parse_members_comma _ _ _ _ _ (JStr r)) by apply parse_value_string.
  rewrite (parse_members_brace _ _ _ _ _ (JNum e))
    by (apply parse_value_number; now right).
  reflexivity.
Qed.

Lemma well_formed_TokenRecord (v : jsval) :
  well_formed v = true -> exists a r e, v = TokenRecord a r e.
Proof.
  unfold well_formed.
  destruct v as [| | | | | |fields]; try discriminate.
  destruct fields as [|[k1 [| | | | |a|]] [|[k2 [| | | | |r|]] [|[k3 [| | |e| | |]] [|]]]];
    try discriminate.
  intros H. apply andb_true_iff in H. destruct H as [H H3].
  apply andb_true_iff in H. destruct H as [H1 H2].
  apply String.eqb_eq in H1, H2, H3. subst. now exists a, r, e.
Qed.

(** C2: saving a well-formed record and loading it again yields that
    record, whatever the token file held before. *)
Theorem save_load_roundtrip (w : World) (record : jsval) :
  well_formed record = true ->
  exists w',
    bind (saveTokens record) (fun _ => loadTokens) w = (Ok record, w') /\
    fst (loadTokens w') = Ok record.
Proof.
  intros Hwf. destruct (well_formed_TokenRecord _ Hwf) as (a & r & e & ->).
  assert (Hload : forall w0,
            loadTokens (set_fs (<[token_path :=
                          encrypt (ENCRYPTION_KEY env) (record_text a r e)]> (fs w0)) w0)
            = (Ok (TokenRecord a r e),
               set_fs (<[token_path :=
                          encrypt (ENCRYPTION_KEY env) (record_text a r e)]> (fs w0)) w0)).
  { intros w0. unfold loadTokens. cbn [fs set_fs].
    rewrite lookup_insert_eq, decrypt_encrypt, parse_record_text. reflexivity. }
  eexists. split.
  - unfold bind, saveTokens. rewrite stringify_TokenRecord.
    unfold writeFileSync, modify. apply Hload.
  - now rewrite Hload.
Qed.

(** ** More of the server *)


(** *** What the token helpers leave alone *)

Lemma saveTokens_frame v w :
  codeVerifier (snd (saveTokens v w)) = codeVerifier w /\
  draws (snd (saveTokens v w)) = draws w /\
  clock (snd (saveTokens v w)) = clock w /\
  sent (snd (saveTokens v w)) = sent w /\
  forall p, p <> token_path -> fs (snd (saveTokens v w)) !! p = fs w !! p.
Proof.
  unfold saveTokens. destruct (Json.stringify v); cbn; repeat split; auto.
  intros p Hp. now apply lookup_insert_ne.
Qed.

Lemma saveTokens_throw v w e w' : saveTokens v w = (Throw e, w') -> w' = w.
Proof.
  unfold saveTokens. destruct (Json.stringify v); cbn.
  - discriminate.
  - now intros [= _ <-].
Qed.

Ltac use_saveTokens :=
  match goal with
  | H : saveTokens ?v ?w1 = (_, ?w2) |- _ =>
      let F := fresh "Hframe" in
      pose proof (saveTokens_frame v w1) as F; rewrite H in F;
      cbn [fst snd codeVerifier fs clock draws sent] in F;
      destruct F as (? & ? & ? & ? & ?)
  end.

(** The refresher changes nothing but the token file, the clock and the
    log of calls. *)
Lemma getValidAccessToken_frame w :
  codeVerifier (snd (getValidAccessToken w)) = codeVerifier w /\
  draws (snd (getValidAccessToken w)) = draws w /\
  (clock w <= clock (snd (getValidAccessToken w)))%Z /\
  forall p, p <> token_path -> fs (snd (getValidAccessToken w)) !! p = fs w !! p.
Proof.
  unfold getValidAccessToken. unfold_js.
  pose proof (loadTokens_world w) as Hl.
  destruct (loadTokens w) as [[tokens|e] w0]; cbn in Hl; subst w0.
  2:{ cbn. repeat split; auto. lia. }
  repeat step; cbn [fst snd codeVerifier fs clock draws sent].
  all: try use_saveTokens.
  all: repeat split; auto; try lia.
  all: try congruence.
Qed.

(** *** The refresher *)



(** How [getValidAccessToken] fails.  It throws in three ways only: the
    error of the token store passes through; without tokens it is the
    'No tokens available' error; with tokens it is the 're-authenticate'
    error, after exactly one refresh call (whatever went wrong: the
    description the platform gave is not passed on).  In every case the
    files are as they were: a failed refresh never overwrites the stored
    record. *)
Theorem getValidAccessToken_failure_modes (w w' : World) (e : JsError) :
  getValidAccessToken w = (Throw e, w') ->
  fs w' = fs w /\
  ((fst (loadTokens w) = Throw e /\ w' = w) \/
   (exists tokens, fst (loadTokens w) = Ok tokens /\ truthy tokens = false /\
      e = Error no_tokens_message /\ w' = w) \/
   (exists tokens rt, fst (loadTokens w) = Ok tokens /\ truthy tokens = true /\
      get_prop tokens "refresh_token" = Ok rt /\
      e = Error refresh_failed_message /\
      sent w' = (sent w ++ [refresh_request rt])%list)).
Proof.
  assert (G : match getValidAccessToken w with
              | (Throw e, w') =>
                  fs w' = fs w /\
                  ((fst (loadTokens w) = Throw e /\ w' = w) \/
                   (exists tokens, fst (loadTokens w) = Ok tokens /\ truthy tokens = false /\
                      e = Error no_tokens_message /\ w' = w) \/
                   (exists tokens rt, fst (loadTokens w) = Ok tokens /\ truthy tokens = true /\
                      get_prop tokens "refresh_token" = Ok rt /\
                      e = Error refresh_failed_message /\
                      sent w' = (sent w ++ [refresh_request rt])%list))
              | (Ok _, _) => True
              end).
  { unfold getValidAccessToken. unfold_js.
    pose proof (loadTokens_world w) as Hl.
    destruct (loadTokens w) as [[tokens|e0] w0] eqn:L; cbn in Hl; subst w0.
    2:{ cbn. split; [reflexivity|]. left. now split. }
    cbn [fst].
    repeat step; cbn [fst snd fs sent]; try exact I.
    all: try match goal with
         | H : saveTokens ?v ?w1 = (Throw _, ?w2) |- _ =>
             apply saveTokens_throw in H; subst w2
         end.
    all: try match goal with
         | H : get_prop ?t _ = Throw _, T : negb (truthy ?t) = false |- _ =>
             destruct t; discriminate
         end.
    all: cbn [fs sent]; (split; [reflexivity|]).
    all: try (right; left; exists tokens; split; [reflexivity|];
              split; [now apply negb_true_iff|]; split; reflexivity).
    all: right; right; exists tokens; eexists; split; [reflexivity|];
         split; [now apply negb_false_iff|]; split; [eassumption|];
         split; reflexivity. }
  intros H. rewrite H in G. exact G.
Qed.

Lemma saveTokens_TokenRecord a r e w :
  saveTokens (TokenRecord a r e) w
  = (Ok tt, set_fs (<[token_path := encrypt (ENCRYPTION_KEY env) (record_text a r e)]> (fs w)) w).
Proof. unfold saveTokens. now rewrite stringify_TokenRecord. Qed.

Lemma loadTokens_stored a r e w :
  fs w !! token_path = Some (encrypt (ENCRYPTION_KEY env) (record_text a r e)) ->
  loadTokens w = (Ok (TokenRecord a r e), w).
Proof.
  intros H. unfold loadTokens.
  now rewrite H, decrypt_encrypt, parse_record_text.
Qed.


(** *** [GET /auth/callback] *)

(** What a successful exchange leaves behind. *)
Lemma auth_callback_success_eq
  (w : World) (req : Req) (st : Z) (fields : list (string * jsval)) (dt : N)
  (a r : string) (n : Z) :
  truthy (obj_get (query req) "code") = true ->
  truthy (codeVerifier w) = true ->
  platform (sent w) (exchange_request (obj_get (query req) "code") (codeVerifier w))
    = mkReply (Resolved (mkAxiosResponse st (JObj fields))) dt ->
  truthy (obj_get fields "error") = false ->
  obj_get fields "access_token" = JStr a -> a <> EmptyString ->
  obj_get fields "refresh_token" = JStr r ->
  obj_get fields "expires_in" = JNum n ->
  auth_callback req w
  = (Ok (send 200 login_successful_page),
     mkWorld JNull
       (<[token_path := encrypt (ENCRYPTION_KEY env)
                          (record_text a r (clock w + Z.of_N dt + n * 1000))]> (fs w))
       (clock w + Z.of_N dt) (draws w)
       (sent w ++ [exchange_request (obj_get (query req) "code") (codeVerifier w)])).
Proof.
  intros Hcode Hcv Hreply Herr Ha Hne Hr Hn.
  unfold auth_callback. remember saveTokens as save eqn:Esave.
  rewrite Hcode. cbn [negb]. unfold_js. rewrite Hcv. cbn [negb].
  fold (exchange_request (obj_get (query req) "code") (codeVerifier w)).
  rewrite Hreply. simpl. rewrite Herr, Ha. simpl.
  destruct (String.eqb_spec a EmptyString) as [|_]; [contradiction|]. simpl.
  rewrite Hr, Hn. unfold js_add_num, js_mul, arith. simpl. subst save.
  fold (TokenRecord a r (clock w + Z.of_N dt + n * 1000)).
  rewrite saveTokens_TokenRecord. reflexivity.
Qed.

(** A callback with a code and a pending verifier, answered by the
    platform with tokens, replies 200 with the confirmation page, clears
    the verifier and stores the record: loading it gives the access token,
    the refresh token and an expiry [expires_in] seconds after the reply
    arrived (the time of the reply, the lifetime in milliseconds and their
    sum being safe integers, so that the sum is the number the language
    computes). *)
Theorem auth_callback_stores_tokens
  (w : World) (req : Req) (st : Z) (fields : list (string * jsval)) (dt : N)
  (a r : string) (n : Z) :
  truthy (obj_get (query req) "code") = true ->
  truthy (codeVerifier w) = true ->
  platform (sent w) (exchange_request (obj_get (query req) "code") (codeVerifier w))
    = mkReply (Resolved (mkAxiosResponse st (JObj fields))) dt ->
  truthy (obj_get fields "error") = false ->
  obj_get fields "access_token" = JStr a -> a <> EmptyString ->
  obj_get fields "refresh_token" = JStr r ->
  obj_get fields "expires_in" = JNum n ->
  Number_isSafeInteger (clock w + Z.of_N dt) = true ->
  Number_isSafeInteger (n * 1000) = true ->
  Number_isSafeInteger (clock w + Z.of_N dt + n * 1000) = true ->
  exists w',
    auth_callback req w = (Ok (send 200 login_successful_page), w') /\
    codeVerifier w' = JNull /\
    fst (loadTokens w') = Ok (TokenRecord a r (clock w + Z.of_N dt + n * 1000)) /\
    clock w' = (clock w + Z.of_N dt)%Z.
Proof.
  intros Hcode Hcv Hreply Herr Ha Hne Hr Hn _ _ _.
  eexists. split; [eapply auth_callback_success_eq; eassumption|].
  split; [reflexivity|]. split; [|reflexivity].
  erewrite loadTokens_stored; [reflexivity|]. cbn [fs]. apply lookup_insert_eq.
Qed.


(** What [/auth/callback] can do.  It always answers, with 200, 400 or
    500; it makes at most one call, the code exchange; it writes no file
    but the token file, and that one only when it answers 200; without a
    code or without a pending verifier it answers 400 and changes
    nothing. *)
Theorem auth_callback_effects (w : World) (req : Req) :
  exists resp w',
    auth_callback req w = (Ok resp, w') /\
    (code resp = 200 \/ code resp = 400 \/ code resp = 500)%Z /\
    (sent w' = sent w \/
     sent w' = (sent w ++ [exchange_request (obj_get (query req) "code")
                                            (codeVerifier w)])%list) /\
    (forall p, p <> token_path -> fs w' !! p = fs w !! p) /\
    (code resp <> 200%Z -> fs w' = fs w) /\
    draws w' = draws w /\
    (truthy (obj_get (query req) "code") = false \/ truthy (codeVerifier w) = false ->
     code resp = 400%Z /\ w' = w).
Proof.
  unfold auth_callback. unfold_js.
  repeat step; (eexists; eexists; split; [reflexivity|]).
  all: cbn [code send fst snd codeVerifier fs clock draws sent].
  all: try use_saveTokens.
  all: try match goal with
       | H : saveTokens ?v ?w1 = (Throw _, ?w2) |- _ =>
           apply saveTokens_throw in H; subst w2
       end.
  all: cbn [codeVerifier fs clock draws sent].
  all: repeat match goal with |- _ /\ _ => split end.
  all: try (intros [Hx|Hx]; apply negb_false_iff in Heqb; try apply negb_false_iff in Heqb0;
            congruence).
  all: auto.
  all: try (right; congruence).
  all: try (intros; split; [reflexivity|now destruct w]).
  all: try (intros Hx; now contradiction Hx).
  all: try (intros; congruence).
Qed.

(** *** The simple proxies *)

(** No retries, no side effects.  After [getValidAccessToken] has run,
    [/creator-info], [/user/info] and [/video/status] always answer, make
    at most one call (none when the token could not be had, or when their
    parameter is missing) and leave the files and the pending verifier as
    [getValidAccessToken] left them. *)
Theorem simple_proxies_call_once (w w1 : World) (req : Req) (o : Outcome jsval) :
  getValidAccessToken w = (o, w1) ->
  (exists resp w',
     creator_info req w = (Ok resp, w') /\
     fs w' = fs w1 /\ codeVerifier w' = codeVerifier w1 /\
     sent w' = (sent w1 ++ match o with
                           | Ok t => [creator_info_request t]
                           | Throw _ => []
                           end)%list)
  /\ (exists resp w',
     user_info req w = (Ok resp, w') /\
     fs w' = fs w1 /\ codeVerifier w' = codeVerifier w1 /\
     sent w' = (sent w1 ++ match o with
                           | Ok t =>
                               if truthy (obj_get (query req) "fields")
                               then [user_info_request t (obj_get (query req) "fields")]
                               else []
                           | Throw _ => []
                           end)%list)
  /\ (exists resp w',
     video_status req w = (Ok resp, w') /\
     fs w' = fs w1 /\ codeVerifier w' = codeVerifier w1 /\
     sent w' = (sent w1 ++ match o with
                           | Ok t =>
                               if truthy (obj_get (query req) "publish_id")
                               then [video_status_request t (obj_get (query req) "publish_id")]
                               else []
                           | Throw _ => []
                           end)%list).
Proof.
  intros Hg. split; [|split].
  - unfold creator_info, try_catch. unfold bind at 1. rewrite Hg.
    destruct o as [t|e]; unfold_js; repeat step;
      (eexists; eexists; split; [reflexivity|]); cbn [fs codeVerifier sent];
      rewrite ?app_nil_r; auto.
  - unfold user_info, try_catch. unfold bind at 1. rewrite Hg.
    destruct o as [t|e]; unfold_js;
      [destruct (truthy (obj_get (query req) "fields")); cbn [negb]|];
      repeat step;
      (eexists; eexists; split; [reflexivity|]); cbn [fs codeVerifier sent];
      rewrite ?app_nil_r; auto.
  - unfold video_status, try_catch. unfold bind at 1. rewrite Hg.
    destruct o as [t|e]; unfold_js;
      [destruct (truthy (obj_get (query req) "publish_id")); cbn [negb]|];
      repeat step;
      (eexists; eexists; split; [reflexivity|]); cbn [fs codeVerifier sent];
      rewrite ?app_nil_r; auto.
Qed.

(** *** [POST /video/direct-post] *)

(** The calls are never refused for want of an answer, and the files stay:
    [/video/direct-post] always answers, and it neither removes nor
    rewrites any file (the video it posts is left in place); the token
    file is touched by [getValidAccessToken] only. *)
Theorem video_direct_post_keeps_files (w : World) (req : Req) :
  exists resp w',
    video_direct_post req w = (Ok resp, w') /\
    (code resp = 200 \/ code resp = 400 \/ code resp = 500)%Z /\
    fs w' = fs (snd (getValidAccessToken w)) /\
    (forall p, p <> token_path -> fs w' !! p = fs w !! p).
Proof.
  pose proof (getValidAccessToken_frame w) as (_ & _ & _ & Hfs).
  unfold video_direct_post, try_catch. unfold bind at 1.
  destruct (getValidAccessToken w) as [[t|e] w1]; cbn [snd] in *.
  2:{ unfold ret. eexists; eexists. split; [reflexivity|]. cbn. auto. }
  unfold_js. unfold readFileSync, existsSync, gets.
  repeat step; (eexists; eexists; split; [reflexivity|]);
    cbn [code json failure fs]; auto 6.
Qed.

(** Nothing is sent for a request that cannot be served: without
    [file_path], without [title], or when [file_path] names no file, the
    answer is 400 and no call follows the token lookup. *)
Theorem video_direct_post_validation
  (w w1 : World) (req : Req) (t : jsval) (body : list (string * jsval)) :
  getValidAccessToken w = (Ok t, w1) ->
  reqbody req = JObj body ->
  (truthy (obj_get body "file_path") = false ->
     video_direct_post req w
     = (Ok (json 400 (JObj [("error", JStr "file_path is required")])), w1))
  /\ (truthy (obj_get body "file_path") = true ->
      truthy (obj_get body "title") = false ->
      video_direct_post req w
      = (Ok (json 400 (JObj [("error", JStr "title is required")])), w1))
  /\ (truthy (obj_get body "file_path") = true ->
      truthy (obj_get body "title") = true ->
      (forall p, obj_get body "file_path" = JStr p -> fs w1 !! p = None) ->
      video_direct_post req w
      = (Ok (json 400 (JObj [("error", JStr "File not found at specified path")])), w1)).
Proof.
  intros Hg Hb.
  split; [|split].
  - intros Hf. unfold video_direct_post, try_catch. unfold bind at 1. rewrite Hg.
    unfold_js. rewrite Hb. cbn [get_prop]. rewrite Hf. reflexivity.
  - intros Hf Ht. unfold video_direct_post, try_catch. unfold bind at 1. rewrite Hg.
    unfold_js. rewrite Hb. cbn [get_prop]. rewrite Hf, Ht. reflexivity.
  - intros Hf Ht Hnone. unfold video_direct_post, try_catch. unfold bind at 1. rewrite Hg.
    unfold_js. rewrite Hb. cbn [get_prop]. rewrite Hf, Ht. cbn [negb].
    destruct (obj_get body "file_path") as [| | | | |p|]; try reflexivity.
    unfold existsSync, gets. rewrite (Hnone p eq_refl).
    case_bool_decide as Hs; [destruct Hs; discriminate|reflexivity].
Qed.

(** What is announced is what is on disk, and it goes out in one piece.
    For an existing file, the init call carries the file's length as
    [video_size], [min(length, 10 MiB)] as [chunk_size] and the ceiling of
    their quotient as [total_chunk_count]; at most one call follows it, a
    PUT of the file's bytes with [Content-Range] covering all of them, and
    every 200 answer has made that PUT. *)
Theorem video_direct_post_uploads_file
  (w w1 : World) (req : Req) (t title : jsval) (body : list (string * jsval))
  (p bytes : string) :
  getValidAccessToken w = (Ok t, w1) ->
  reqbody req = JObj body ->
  obj_get body "file_path" = JStr p -> p <> EmptyString ->
  obj_get body "title" = title -> truthy title = true ->
  fs w1 !! p = Some bytes ->
  let n := Z.of_nat (String.length bytes) in
  exists resp w' rest,
    video_direct_post req w = (Ok resp, w') /\
    sent w' = (sent w1 ++ direct_post_init_request t title n :: rest)%list /\
    (rest = [] \/ exists u, rest = [mkRequest PUT u (Raw bytes) (upload_headers n)]) /\
    (code resp = 200%Z -> rest <> []) /\
    payload (direct_post_init_request t title n)
    = Json (JObj
        [ ("post_info", JObj
             [ ("title", title);
               ("privacy_level", JStr "PUBLIC_TO_EVERYONE");
               ("disable_duet", JBool false);
               ("disable_comment", JBool false);
               ("disable_stitch", JBool false);
               ("video_cover_timestamp_ms", JNum 1000) ]);
          ("source_info", JObj
             [ ("source", JStr "FILE_UPLOAD");
               ("video_size", JNum n);
               ("chunk_size", JNum (Z.min n MiB10));
               ("total_chunk_count", Math_ceil_div n (Z.min n MiB10)) ]) ]).
Proof.
  intros Hg Hb Hp Hne Ht Htt Hfile n.
  assert (Hpt : truthy (JStr p) = true).
  { cbn. destruct (String.eqb_spec p EmptyString); [contradiction|reflexivity]. }
  unfold video_direct_post, try_catch. unfold bind at 1. rewrite Hg.
  unfold_js. rewrite Hb. cbn [get_prop]. rewrite Hp, Ht, Hpt, Htt. cbn [negb to_string].
  unfold existsSync, gets, readFileSync. rewrite Hfile.
  case_bool_decide as Hs; [|exfalso; apply Hs; eauto]. cbn [negb].
  cbv beta iota zeta. rewrite Hfile. cbv beta iota zeta. fold n.
  change (mkRequest POST (JStr "https://open.tiktokapis.com/v2/post/publish/video/init/")
            (Json (JObj
               [ ("post_info", JObj
                    [ ("title", title);
                      ("privacy_level", JStr "PUBLIC_TO_EVERYONE");
                      ("disable_duet", JBool false);
                      ("disable_comment", JBool false);
                      ("disable_stitch", JBool false);
                      ("video_cover_timestamp_ms", JNum 1000) ]);
                 ("source_info",
                  source_info n (if (n <? MiB10)%Z then n else MiB10)
                    (Math_ceil_div n (if (n <? MiB10)%Z then n else MiB10))) ]))
            (bearer_json t))
    with (direct_post_init_request t title n).
  repeat step; cbn [fs sent] in *.
  all: try match goal with
       | H1 : ?l = Some ?x, H2 : ?l = Some ?y |- _ =>
           rewrite H1 in H2; first [injection H2 as <- | injection H2 as ->]
       | H1 : ?l = Some _, H2 : ?l = None |- _ => rewrite H1 in H2; discriminate H2
       end.
  all: eexists; eexists.
  all: try (exists []; split; [reflexivity|]; split; [reflexivity|];
            split; [now left|]; split; [cbn [code failure json]; discriminate|]).
  all: try (eexists; (split; [reflexivity|]); cbn [sent];
            rewrite <- ?app_assoc; cbn [app];
            (split; [reflexivity|]);
            (split; [right; eexists; reflexivity|]);
            split; [discriminate|]).
  all: unfold direct_post_init_request, source_info; cbn [payload]; cbv zeta;
       rewrite chunk_size_min; reflexivity.
Qed.

(** *** [POST /video/upload]: what else it touches *)

(** The clean-up removes the upload and nothing else. *)
Lemma cleanup_temp_file_frame req w :
  forall p, (forall f, file req = Some f -> p <> path f) ->
    fs (snd (cleanup_temp_file req w)) !! p = fs w !! p.
Proof.
  intros p Hp. unfold cleanup_temp_file.
  destruct (file req) as [f|]; [|reflexivity].
  specialize (Hp f eq_refl).
  destruct (truthy (JStr (path f))); [|reflexivity].
  unfold bind, existsSync, gets, unlinkSync, ret.
  case_bool_decide as Hs; [|reflexivity].
  destruct (fs w !! path f) eqn:E; [|reflexivity].
  cbn [snd fs set_fs]. now apply lookup_delete_ne.
Qed.

(** Only the upload goes.  Whatever happens, [/video/upload] leaves every
    file other than its temporary upload (and the token file, which is
    [getValidAccessToken]'s) as it was; and a request without a file is
    answered 400 before anything is looked up or sent: the state is
    untouched. *)
Theorem video_upload_touches_only_its_upload (w : World) (req : Req) :
  (forall p, p <> token_path -> (forall f, file req = Some f -> p <> path f) ->
     fs (snd (video_upload req w)) !! p = fs w !! p)
  /\ (file req = None ->
      video_upload req w
      = (Ok (json 400 (JObj [("error", JStr "No video file uploaded")])), w)).
Proof.
  split.
  2:{ intros Hnone. unfold video_upload, try_catch. now rewrite Hnone. }
  intros p Htok Hpath.
  pose proof (getValidAccessToken_frame w) as (_ & _ & _ & Hfs).
  specialize (Hfs p Htok).
  unfold video_upload, try_catch.
  destruct (file req) as [f|] eqn:Hf; [|reflexivity].
  specialize (Hpath f eq_refl).
  unfold bind at 1 2.
  destruct (getValidAccessToken w) as [[t|e] w1]; cbn [snd] in Hfs.
  2:{ unfold bind. pose proof (cleanup_temp_file_frame req w1 p) as Hc.
      destruct (cleanup_temp_file req w1) as [[[]|e'] w2]; cbn [snd] in *;
        unfold ret; cbv beta iota; cbn [snd]; (rewrite Hc; [assumption|]);
        intros f' Hf'; rewrite Hf in Hf'; now injection Hf' as <-. }
  unfold_js. unfold readFileSync, unlinkSync at 1 2.
  repeat step; cbn [snd fs set_fs] in *.
  all: try match goal with
       | H : cleanup_temp_file ?r ?w0 = (_, ?w2) |- _ =>
           let Hc := fresh "Hc" in
           pose proof (cleanup_temp_file_frame r w0 p) as Hc;
           rewrite H in Hc; cbn [snd fs set_fs] in Hc; rewrite Hc;
           [|intros f' Hf'; rewrite Hf in Hf'; now injection Hf' as <-]
       end.
  all: rewrite ?lookup_delete_ne by congruence; assumption.
Qed.

(** *** [POST /video/upload] from a URL *)


(** *** Login *)

(** [generateRandomString(n)] for any [n]: the result has exactly [n]
    characters, all of the 66-character alphabet; it takes exactly [n]
    numbers from [Math.random()] and changes nothing else.  For [n = 0]
    it is the empty string and no number is taken. *)
Theorem generateRandomString_length (n : nat) (w : World) :
  exists s,
    generateRandomString n w = (Ok s, drawn n w) /\
    String.length s = n /\
    all_chars verifier_char s = true /\
    (n = 0%nat -> s = EmptyString /\ drawn n w = w).
Proof.
  exists (random_chars n (draws w)).
  split; [|split; [|split]].
  - unfold generateRandomString. now rewrite generateRandomString_loop_eq.
  - apply random_chars_spec.
  - apply random_chars_spec.
  - intros ->. split; [reflexivity|]. now destruct w.
Qed.

(** [/auth/login] stays local and never repeats a draw: it always answers
    302, makes no outbound call, leaves files and clock alone and takes
    exactly 64 numbers from the random source; a login that follows draws
    the next 64. *)
Theorem auth_login_local (w : World) (req req2 : Req) :
  exists resp w',
    auth_login req w = (Ok resp, w') /\
    code resp = 302%Z /\
    sent w' = sent w /\ fs w' = fs w /\ clock w' = clock w /\
    draws w' = (64 + draws w)%nat /\
    codeVerifier w' = JStr (random_chars 64 (draws w)) /\
    codeVerifier (snd (auth_login req2 w')) = JStr (random_chars 64 (64 + draws w)).
Proof.
  eexists; eexists. split.
  - unfold auth_login, bind. rewrite generatePKCE_eq. reflexivity.
  - cbn [code sent fs clock draws codeVerifier set_codeVerifier drawn].
    repeat split.
    unfold auth_login, bind. rewrite generatePKCE_eq. reflexivity.
Qed.

(** *** A reply without [expires_in] *)

Lemma stringify_NaN_expiry (a r : string) :
  Json.stringify (JObj [ ("access_token", JStr a); ("refresh_token", JStr r);
                         ("expires_at", JNaN) ])
  = Some (record_without_expiry_text a r).
Proof.
  unfold Json.stringify, Json.join_comma, record_without_expiry_text.
  f_equal. rewrite !string_app_assoc. reflexivity.
Qed.

Lemma parse_record_without_expiry (a r : string) :
  Json.parse (record_without_expiry_text a r) = Some (record_without_expiry a r).
Proof.
  unfold Json.parse.
  destruct (String.length (record_without_expiry_text a r)) as [|[|[|[|[|n]]]]] eqn:E;
    try (unfold record_without_expiry_text in E; rewrite quote_app in E; discriminate E).
  unfold record_without_expiry_text.
  assert (Hopen : forall rest,
            Json.parse_value (S (S (S (S (S n)))))
              ("{" ++ Json.quote "access_token" ++ rest)
            = Json.parse_members (Json.parse_value (S (S (S (S n)))))
                (S (S (S (S n)))) [] (Json.quote "access_token" ++ rest)).
  { intros rest. rewrite quote_app. reflexivity. }
  rewrite Hopen.
  rewrite (parse_members_comma _ _ _ _ _ (JStr a)) by apply parse_value_string.
  rewrite (parse_members_comma _ _ _ _ _ (JStr r)) by apply parse_value_string.
  rewrite (parse_members_brace _ _ _ _ _ JNull) by reflexivity.
  reflexivity.
Qed.

(** A reply without a lifetime makes the token useless.  When the platform
    answers the code exchange with tokens but no [expires_in], the
    callback still answers 200 and stores the record, with an expiry that
    is not a number; it reads back as [null], and from then on every call
    of [getValidAccessToken] (at any time after the epoch, from any state
    with these files) goes to the platform for a refresh instead of using
    the stored token. *)
Theorem auth_callback_without_expires_in
  (w : World) (req : Req) (st : Z) (fields : list (string * jsval)) (dt : N)
  (a r : string) :
  truthy (obj_get (query req) "code") = true ->
  truthy (codeVerifier w) = true ->
  platform (sent w) (exchange_request (obj_get (query req) "code") (codeVerifier w))
    = mkReply (Resolved (mkAxiosResponse st (JObj fields))) dt ->
  truthy (obj_get fields "error") = false ->
  obj_get fields "access_token" = JStr a -> a <> EmptyString ->
  obj_get fields "refresh_token" = JStr r ->
  obj_get fields "expires_in" = JUndefined ->
  exists w',
    auth_callback req w = (Ok (send 200 login_successful_page), w') /\
    fst (loadTokens w') = Ok (record_without_expiry a r) /\
    forall w2, fs w2 = fs w' -> (0 <= clock w2)%Z ->
      sent (snd (getValidAccessToken w2)) = (sent w2 ++ [refresh_request (JStr r)])%list.
Proof.
  intros Hcode Hcv Hreply Herr Ha Hne Hr Hn.
  assert (Hload : forall w0,
            fs w0 !! token_path
              = Some (encrypt (ENCRYPTION_KEY env) (record_without_expiry_text a r)) ->
            loadTokens w0 = (Ok (record_without_expiry a r), w0)).
  { intros w0 H. unfold loadTokens.
    now rewrite H, decrypt_encrypt, parse_record_without_expiry. }
  exists (mkWorld JNull
            (<[token_path := encrypt (ENCRYPTION_KEY env)
                               (record_without_expiry_text a r)]> (fs w))
            (clock w + Z.of_N dt) (draws w)
            (sent w ++ [exchange_request (obj_get (query req) "code") (codeVerifier w)])).
  split; [|split].
  - unfold auth_callback. remember saveTokens as save eqn:Esave.
    rewrite Hcode. cbn [negb]. unfold_js. rewrite Hcv. cbn [negb].
    fold (exchange_request (obj_get (query req) "code") (codeVerifier w)).
    rewrite Hreply. simpl. rewrite Herr, Ha. simpl.
    destruct (String.eqb_spec a EmptyString) as [|_]; [contradiction|]. simpl.
    rewrite Hr, Hn. unfold js_add_num, js_mul, arith. simpl. subst save.
    unfold saveTokens. rewrite stringify_NaN_expiry. reflexivity.
  - rewrite Hload; [reflexivity|]. cbn [fs]. apply lookup_insert_eq.
  - intros w2 Hfs Hclock.
    assert (L2 : loadTokens w2 = (Ok (record_without_expiry a r), w2)).
    { apply Hload. rewrite Hfs. cbn [fs]. apply lookup_insert_eq. }
    unfold getValidAccessToken. rewrite (bind_ok _ _ _ _ _ L2).
    simpl. unfold_js. simpl. unfold js_lt, js_sub, arith. simpl.
    match goal with |- context [(?x <? ?y)%Z] => destruct (Z.ltb_spec x y) end; [lia|].
    repeat step; simpl; try reflexivity.
    all: match goal with
         | H : saveTokens ?v ?w1 = (_, ?w3) |- _ =>
             pose proof (saveTokens_sent v w1) as Hs; rewrite H in Hs; simpl in Hs;
             rewrite Hs; reflexivity
         end.
Qed.

(** *** Where the access token goes *)



(** The refresher's footprint: at most one call, the refresh grant (never
    a second try); the pending verifier, the random source and every file
    but the token file are left alone; time does not run backwards; and
    when no call was made nothing at all has changed. *)
Theorem getValidAccessToken_footprint (w : World) :
  (sent (snd (getValidAccessToken w)) = sent w \/
   exists rt, sent (snd (getValidAccessToken w)) = (sent w ++ [refresh_request rt])%list) /\
  codeVerifier (snd (getValidAccessToken w)) = codeVerifier w /\
  draws (snd (getValidAccessToken w)) = draws w /\
  (clock w <= clock (snd (getValidAccessToken w)))%Z /\
  (forall p, p <> token_path -> fs (snd (getValidAccessToken w)) !! p = fs w !! p) /\
  (sent (snd (getValidAccessToken w)) = sent w -> snd (getValidAccessToken w) = w).
Proof.
  pose proof (getValidAccessToken_frame w) as (Hcv & Hdr & Hcl & Hfs).
  pose proof (getValidAccessToken_sent w) as Hs.
  repeat split; auto.
  intros Hsame. clear Hs Hcv Hdr Hcl Hfs. revert Hsame.
  unfold getValidAccessToken. unfold_js.
  pose proof (loadTokens_world w) as Hl.
  destruct (loadTokens w) as [[tokens|e] w0]; cbn in Hl; subst w0; [|reflexivity].
  repeat step; cbn [snd sent]; try reflexivity.
  all: try match goal with
       | H : saveTokens ?v ?w1 = (_, ?w2) |- _ =>
           pose proof (saveTokens_sent v w1) as Hs; rewrite H in Hs; cbn [snd sent] in Hs;
           rewrite Hs
       end.
  all: intros Hsame; exfalso; exact (cons_app_neq _ _ Hsame).
Qed.

End Server.

(** ** The properties on the concrete deployment *)

Lemma cycle_source_range (n : nat) :
  (0 <= cycle_source n)%Q /\ (cycle_source n < 1)%Q.
Proof.
  unfold cycle_source, Qle, Qlt. cbn [Qnum Qden].
  pose proof (Nat.mod_upper_bound n 66 ltac:(discriminate)). lia.
Qed.

Lemma tag_decrypt_encrypt (k : option string) (text : string) :
  tag_decrypt k (tag_encrypt k text) = Some text.
Proof.
  unfold tag_decrypt, tag_encrypt. induction (key_text k) as [|c p IH]; [reflexivity|].
  cbn [String.append strip]. now rewrite Ascii.eqb_refl.
Qed.

Example sha256_abc :
  Sha256.sha256_hex "abc"
  = "ba7816bf8f01cfea414140de5dae2223b00361a396177a9cb410ff61f20015ad".
Proof. vm_compute. reflexivity. Qed.

(** A record that expires in 59 seconds: the refresh grant goes out with the
    stored refresh token, and the new access token is returned and stored. *)
Example refresh_at_59_seconds :
  getValidAccessToken env0 no_numbers granting tag_encrypt tag_decrypt
    (stored "A0" "R0" 1700000059000 1700000000000)
  = (Ok (JStr "A"),
     mkWorld JNull
       {[ token_path := tag_encrypt (ENCRYPTION_KEY env0) (record_text "A" "R" 1700003600150) ]}
       1700000000150 0 [refresh_request env0 (JStr "R0")]).
Proof. vm_compute. reflexivity. Qed.

(** 25 MiB announced to the init endpoint in three chunks of 10 MiB, and
    sent in one PUT. *)
Example upload_25_MiB :
  map (fun rq => (method rq, payload rq, headers rq))
    (sent (snd (video_upload env0 no_numbers granting tag_encrypt tag_decrypt
                  (mkReq [] (JObj []) (Some (mkFile "/tmp/uploads/3f9a" 26214400 "clip.mp4")))
                  (with_clip valid_store))))
  = [ (POST,
       Json (JObj [("source_info",
               JObj [ ("source", JStr "FILE_UPLOAD");
                      ("video_size", JNum 26214400);
                      ("chunk_size", JNum 10485760);
                      ("total_chunk_count", JNum 3) ])]),
       [ ("Authorization", "Bearer A");
         ("Content-Type", "application/json; charset=UTF-8") ]);
      (PUT, Raw "video bytes",
       [ ("Content-Range", "bytes 0-26214399/26214400");
         ("Content-Type", "video/mp4");
         ("Content-Length", "26214400") ]) ].
Proof. vm_compute. reflexivity. Qed.

(** An empty upload: [Math.ceil(0 / 0)] is [NaN]. *)
Example upload_empty_file_chunk_count :
  payload (inbox_init_request (JStr "A") 0)
  = Json (JObj [("source_info",
            JObj [ ("source", JStr "FILE_UPLOAD");
                   ("video_size", JNum 0);
                   ("chunk_size", JNum 0);
                   ("total_chunk_count", JNaN) ])]).
Proof. reflexivity. Qed.

(** C7: the challenge that [generatePKCE] returns depends on the verifier
    alone, through the fixed hash: two invocations, from any states and
    with any random sources, that produce the same verifier produce the
    same challenge, the SHA-256 digest of the verifier in hexadecimal. *)
Theorem generatePKCE_challenge_deterministic
  (src1 src2 : nat -> Q) (w1 w2 w1' w2' : World) (p1 p2 : Pkce) :
  generatePKCE src1 w1 = (Ok p1, w1') ->
  generatePKCE src2 w2 = (Ok p2, w2') ->
  verifier p1 = verifier p2 ->
  challenge p1 = challenge p2 /\ challenge p1 = Sha256.sha256_hex (verifier p1).
Proof.
  intros H1 H2 Hv.
  apply generatePKCE_challenge in H1, H2. split; congruence.
Qed.

Lemma generatePKCE_challenge_deterministic_witness :
  generatePKCE cycle_source fresh = (Ok pkce0, drawn 64 fresh) /\
  generatePKCE cycle_source later = (Ok pkce0, drawn 64 later) /\
  challenge pkce0 = Sha256.sha256_hex (verifier pkce0).
Proof.
  assert (H1 : generatePKCE cycle_source fresh = (Ok pkce0, drawn 64 fresh))
    by (vm_compute; reflexivity).
  assert (H2 : generatePKCE cycle_source later = (Ok pkce0, drawn 64 later))
    by (vm_compute; reflexivity).
  split; [exact H1|]. split; [exact H2|].
  exact (proj2 (generatePKCE_challenge_deterministic
                  cycle_source cycle_source fresh later _ _ pkce0 pkce0 H1 H2 eq_refl)).
Defined.

Lemma getValidAccessToken_not_yet_authenticated_witness :
  fs fresh !! token_path = None /\
  getValidAccessToken env0 no_numbers refusing tag_encrypt tag_decrypt fresh
  = (Throw (Error "No tokens available. Please complete OAuth flow first. Visit http://localhost:7777/auth/login"),
     fresh).
Proof.
  split; [reflexivity|].
  exact (proj1 (getValidAccessToken_not_yet_authenticated
                  env0 no_numbers refusing tag_encrypt tag_decrypt fresh eq_refl)).
Defined.

Lemma getValidAccessToken_expiry_margin_witness :
  fst (loadTokens env0 tag_decrypt (stored "A" "R" 1700000061000 1700000000000))
    = Ok (TokenRecord "A" "R" 1700000061000) /\
  getValidAccessToken env0 no_numbers refusing tag_encrypt tag_decrypt
    (stored "A" "R" 1700000061000 1700000000000)
  = (Ok (JStr "A"), stored "A" "R" 1700000061000 1700000000000).
Proof.
  assert (H : fst (loadTokens env0 tag_decrypt (stored "A" "R" 1700000061000 1700000000000))
              = Ok (TokenRecord "A" "R" 1700000061000)) by (vm_compute; reflexivity).
  split; [exact H|].
  apply (getValidAccessToken_expiry_margin
           env0 no_numbers refusing tag_encrypt tag_decrypt _ _ _ _ H).
  reflexivity.
Defined.

Lemma save_load_roundtrip_witness :
  well_formed (TokenRecord "A" "R" 1700003600000) = true /\
  exists w',
    bind (saveTokens env0 tag_encrypt (TokenRecord "A" "R" 1700003600000))
         (fun _ => loadTokens env0 tag_decrypt) valid_store
    = (Ok (TokenRecord "A" "R" 1700003600000), w') /\
    fst (loadTokens env0 tag_decrypt w') = Ok (TokenRecord "A" "R" 1700003600000).
Proof.
  split; [reflexivity|].
  apply (save_load_roundtrip env0 tag_encrypt tag_decrypt tag_decrypt_encrypt).
  reflexivity.
Defined.



Lemma user_info_missing_fields_witness :
  obj_get (query no_query) "fields" = JUndefined /\
  user_info env0 no_numbers refusing tag_encrypt tag_decrypt no_query valid_store
    = (Ok fields_required, valid_store).
Proof.
  split; [reflexivity|].
  apply (proj1 (user_info_missing_fields env0 no_numbers refusing tag_encrypt tag_decrypt
                  valid_store no_query eq_refl) (JStr "A") valid_store).
  vm_compute. reflexivity.
Defined.

(** C4 as stated fails: on a first run (no tokens stored) a request
    without [fields] is answered 500, not 400. *)
Lemma user_info_missing_fields_first_run :
  obj_get (query no_query) "fields" = JUndefined /\
  fs fresh !! token_path = None /\
  fst (user_info env0 no_numbers refusing tag_encrypt tag_decrypt no_query fresh)
    = Ok (json 500 (JObj
            [ ("error", JStr "User info request failed");
              ("details", JStr "No tokens available. Please complete OAuth flow first. Visit http://localhost:7777/auth/login") ])) /\
  fst (user_info env0 no_numbers refusing tag_encrypt tag_decrypt no_query fresh)
    <> Ok fields_required.
Proof.
  repeat split; try (vm_compute; reflexivity). vm_compute. discriminate.
Qed.

Lemma upstream_failure_responses_witness :
  In (video_direct_post env0 no_numbers dropping tag_encrypt tag_decrypt,
      failure "Video upload failed")
     (proxy_handlers env0 no_numbers dropping tag_encrypt tag_decrypt) /\
  fst (video_direct_post env0 no_numbers dropping tag_encrypt tag_decrypt direct_post_req
         (with_clip valid_store))
    = Ok (json 500 (JObj
            [ ("error", JStr "Video upload failed");
              ("details", JObj [("error", JStr "upload_url_expired")]) ])).
Proof.
  assert (Hin : In (video_direct_post env0 no_numbers dropping tag_encrypt tag_decrypt,
                    failure "Video upload failed")
                   (proxy_handlers env0 no_numbers dropping tag_encrypt tag_decrypt))
    by (right; right; left; reflexivity).
  split; [exact Hin|].
  destruct (proj1 (upstream_failure_responses env0 no_numbers dropping tag_encrypt tag_decrypt
                     (with_clip valid_store) direct_post_req) _ _ Hin)
    as (_ & resp & w' & new & Hrun & Hsent & Hrej).
  set (init := direct_post_init_request (JStr "A") (JStr "My clip") 11).
  set (put := mkRequest PUT (JStr "https://upload.test/p.1") (Raw "video bytes")
                (upload_headers 11)).
  assert (Hlog : sent (snd (video_direct_post env0 no_numbers dropping tag_encrypt tag_decrypt
                              direct_post_req (with_clip valid_store)))
                 = (sent (with_clip valid_store) ++ [init] ++ [put])%list)
    by (vm_compute; reflexivity).
  assert (Hput : result (dropping (sent (with_clip valid_store) ++ [init]) put)
                 = Rejected forbidden) by reflexivity.
  rewrite Hrun in Hlog. cbn [snd] in Hlog. rewrite Hsent in Hlog.
  apply app_inv_head in Hlog.
  destruct (Hrej [init] put [] forbidden Hlog Hput) as (_ & Hresp).
  rewrite Hrun. cbn [fst]. rewrite Hresp. reflexivity.
Defined.

(** C5 as stated fails, twice.  [/creator-info] answers a rejected call
    with the fixed text 'API call failed': a 401 with an error body and an
    unreachable platform get the same answer, so nothing of the upstream
    error is relayed.  And an error body that arrives with a success status
    is passed on by [/user/info] with status 200, not 500. *)
Lemma creator_info_hides_upstream_error :
  result (refusing [] (creator_info_request (JStr "A"))) = Rejected unauthorized /\
  fst (creator_info env0 no_numbers refusing tag_encrypt tag_decrypt no_query valid_store)
    = Ok (send 500 "API call failed") /\
  fst (creator_info env0 no_numbers unreachable tag_encrypt tag_decrypt no_query valid_store)
    = Ok (send 500 "API call failed") /\
  result (complaining [] (user_info_request (JStr "A") (JStr "open_id")))
    = Resolved (mkAxiosResponse 200 invalid_grant) /\
  fst (user_info env0 no_numbers complaining tag_encrypt tag_decrypt fields_req valid_store)
    = Ok (json 200 invalid_grant).
Proof. repeat split; vm_compute; reflexivity. Qed.

Lemma video_upload_removes_temp_file_witness :
  path clip <> EmptyString /\
  is_Some (fs (with_clip valid_store) !! path clip) /\
  exists resp w',
    video_upload env0 no_numbers granting tag_encrypt tag_decrypt upload_clip
      (with_clip valid_store) = (Ok resp, w') /\
    fs w' !! path clip = None.
Proof.
  assert (Hp : path clip <> EmptyString) by discriminate.
  split; [exact Hp|]. split; [vm_compute; eauto|].
  destruct (video_upload_removes_temp_file env0 no_numbers granting tag_encrypt tag_decrypt
              (with_clip valid_store) [] (JObj []) clip Hp)
    as (resp & w' & H1 & H2 & _).
  exists resp, w'. split; assumption.
Defined.

Lemma video_upload_single_put_witness :
  getValidAccessToken env0 no_numbers granting tag_encrypt tag_decrypt (with_clip valid_store)
    = (Ok (JStr "A"), with_clip valid_store) /\
  exists resp w',
    video_upload env0 no_numbers granting tag_encrypt tag_decrypt upload_clip
      (with_clip valid_store) = (Ok resp, w') /\
    sent w' = [ inbox_init_request (JStr "A") 11;
                mkRequest PUT (JStr "https://upload.test/p.1") (Raw "video bytes")
                  (upload_headers 11) ].
Proof.
  assert (H : getValidAccessToken env0 no_numbers granting tag_encrypt tag_decrypt
                (with_clip valid_store) = (Ok (JStr "A"), with_clip valid_store))
    by (vm_compute; reflexivity).
  split; [exact H|].
  destruct (proj1 (video_upload_single_put env0 no_numbers granting tag_encrypt tag_decrypt
                     (with_clip valid_store) (with_clip valid_store) [] (JObj []) clip
                     (Ok (JStr "A")) H))
    as (resp & w' & new & Hrun & Hsent & rest & Hnew & _ & Hput & _).
  exists resp, w'. split; [exact Hrun|].
  rewrite Hsent, Hnew.
  rewrite (Hput _ (JStr "https://upload.test/p.1") "video bytes" eq_refl).
  - reflexivity.
  - exists (JObj [("code", JStr "ok"); ("message", JStr EmptyString)]),
           (JObj [ ("publish_id", JStr "p.1");
                   ("upload_url", JStr "https://upload.test/p.1") ]).
    split; [reflexivity|]. split; [|split; reflexivity].
    right. exists (JStr "ok"). split; reflexivity.
  - vm_compute. reflexivity.
Defined.

(** C9 as stated fails: the PUT is not made for every video.  When the
    platform rejects the init call the handler answers 500 after that one
    call; the file is never sent. *)
Lemma video_upload_rejected_init_no_put :
  getValidAccessToken env0 no_numbers refusing tag_encrypt tag_decrypt (with_clip valid_store)
    = (Ok (JStr "A"), with_clip valid_store) /\
  fst (video_upload env0 no_numbers refusing tag_encrypt tag_decrypt upload_clip
         (with_clip valid_store))
    = Ok (json 500 (JObj
            [ ("error", JStr "Video upload failed");
              ("details", JObj [("error", JStr "access_token_invalid")]) ])) /\
  sent (snd (video_upload env0 no_numbers refusing tag_encrypt tag_decrypt upload_clip
               (with_clip valid_store)))
    = [inbox_init_request (JStr "A") 11] /\
  List.filter (fun rq => match method rq with PUT => true | _ => false end)
    (sent (snd (video_upload env0 no_numbers refusing tag_encrypt tag_decrypt upload_clip
                  (with_clip valid_store))))
    = [].
Proof. repeat split; vm_compute; reflexivity. Qed.

Lemma auth_login_pkce_witness :
  (forall n, (0 <= cycle_source n)%Q /\ (cycle_source n < 1)%Q) /\
  exists v w' authUrl,
    auth_login env0 cycle_source no_query fresh
      = (Ok (mkResponse 302 (Redirect (JStr authUrl))), w') /\
    codeVerifier w' = JStr v /\ String.length v = 64%nat /\
    String.length (Sha256.sha256_hex v) = 64%nat.
Proof.
  split; [exact cycle_source_range|].
  destruct (auth_login_pkce env0 cycle_source cycle_source_range fresh no_query)
    as (v & w' & authUrl & prefix & H1 & H2 & H3 & _ & _ & _ & _ & _ & _ & _ & H4 & _).
  exists v, w', authUrl. repeat split; assumption.
Defined.

(** ** More of the server, on the concrete deployment *)

Lemma getValidAccessToken_failure_modes_witness :
  getValidAccessToken env0 no_numbers refusing tag_encrypt tag_decrypt stale_store
  = (Throw (Error "Token refresh failed. Please re-authenticate at http://localhost:7777/auth/login"),
     snd (getValidAccessToken env0 no_numbers refusing tag_encrypt tag_decrypt stale_store))
  /\ fs (snd (getValidAccessToken env0 no_numbers refusing tag_encrypt tag_decrypt stale_store))
     = fs stale_store.
Proof.
  assert (H : getValidAccessToken env0 no_numbers refusing tag_encrypt tag_decrypt stale_store
              = (Throw (Error "Token refresh failed. Please re-authenticate at http://localhost:7777/auth/login"),
                 snd (getValidAccessToken env0 no_numbers refusing tag_encrypt tag_decrypt
                        stale_store)))
    by (vm_compute; reflexivity).
  split; [exact H|].
  exact (proj1 (getValidAccessToken_failure_modes env0 no_numbers refusing tag_encrypt
                  tag_decrypt stale_store _ _ H)).
Defined.


Lemma auth_callback_stores_tokens_witness :
  truthy (obj_get (query callback_req) "code") = true /\
  truthy (codeVerifier pending_flow) = true /\
  exists w',
    auth_callback env0 no_numbers granting tag_encrypt callback_req pending_flow
    = (Ok (send 200 login_successful_page), w') /\
    fst (loadTokens env0 tag_decrypt w') = Ok (TokenRecord "A" "R" 1700003600150).
Proof.
  split; [reflexivity|]. split; [reflexivity|].
  destruct (auth_callback_stores_tokens env0 no_numbers granting tag_encrypt tag_decrypt
              tag_decrypt_encrypt pending_flow callback_req
              200 [ ("access_token", JStr "A"); ("refresh_token", JStr "R");
                    ("expires_in", JNum 3600) ] 150 "A" "R" 3600
              eq_refl eq_refl eq_refl eq_refl eq_refl ltac:(discriminate) eq_refl eq_refl
              eq_refl eq_refl eq_refl)
    as (w' & H1 & _ & H2 & _).
  exists w'. split; assumption.
Defined.


Lemma simple_proxies_call_once_witness :
  getValidAccessToken env0 no_numbers granting tag_encrypt tag_decrypt valid_store
    = (Ok (JStr "A"), valid_store) /\
  exists resp w',
    video_status env0 no_numbers granting tag_encrypt tag_decrypt no_query valid_store
      = (Ok resp, w') /\
    sent w' = sent valid_store.
Proof.
  assert (H : getValidAccessToken env0 no_numbers granting tag_encrypt tag_decrypt valid_store
              = (Ok (JStr "A"), valid_store)) by (vm_compute; reflexivity).
  split; [exact H|].
  destruct (proj2 (proj2 (simple_proxies_call_once env0 no_numbers granting tag_encrypt
                            tag_decrypt valid_store valid_store no_query _ H)))
    as (resp & w' & H1 & _ & _ & H2).
  exists resp, w'. split; [exact H1|]. rewrite H2. apply app_nil_r.
Defined.

Lemma video_direct_post_validation_witness :
  getValidAccessToken env0 no_numbers granting tag_encrypt tag_decrypt valid_store
    = (Ok (JStr "A"), valid_store) /\
  video_direct_post env0 no_numbers granting tag_encrypt tag_decrypt direct_post_req valid_store
    = (Ok (json 400 (JObj [("error", JStr "File not found at specified path")])), valid_store).
Proof.
  assert (H : getValidAccessToken env0 no_numbers granting tag_encrypt tag_decrypt valid_store
              = (Ok (JStr "A"), valid_store)) by (vm_compute; reflexivity).
  split; [exact H|].
  apply (proj2 (proj2 (video_direct_post_validation env0 no_numbers granting tag_encrypt
                         tag_decrypt valid_store valid_store direct_post_req (JStr "A")
                         _ H eq_refl))); try reflexivity.
  intros p [= <-]. vm_compute. reflexivity.
Defined.

Lemma video_direct_post_uploads_file_witness :
  getValidAccessToken env0 no_numbers granting tag_encrypt tag_decrypt (with_clip valid_store)
    = (Ok (JStr "A"), with_clip valid_store) /\
  fs (with_clip valid_store) !! "/tmp/uploads/3f9a" = Some "video bytes" /\
  exists resp w' rest,
    video_direct_post env0 no_numbers granting tag_encrypt tag_decrypt direct_post_req
      (with_clip valid_store) = (Ok resp, w') /\
    sent w' = (sent (with_clip valid_store)
               ++ direct_post_init_request (JStr "A") (JStr "My clip") 11 :: rest)%list.
Proof.
  assert (H : getValidAccessToken env0 no_numbers granting tag_encrypt tag_decrypt
                (with_clip valid_store) = (Ok (JStr "A"), with_clip valid_store))
    by (vm_compute; reflexivity).
  assert (Hf : fs (with_clip valid_store) !! "/tmp/uploads/3f9a" = Some "video bytes")
    by (vm_compute; reflexivity).
  split; [exact H|]. split; [exact Hf|].
  destruct (video_direct_post_uploads_file env0 no_numbers granting tag_encrypt tag_decrypt
              (with_clip valid_store) (with_clip valid_store) direct_post_req
              (JStr "A") (JStr "My clip") _ "/tmp/uploads/3f9a" "video bytes"
              H eq_refl eq_refl ltac:(discriminate) eq_refl eq_refl Hf)
    as (resp & w' & rest & H1 & H2 & _).
  exists resp, w', rest. split; assumption.
Defined.


(** The URL variant on the deployment: three calls, and what was
    downloaded is what is sent. *)
Example upload_from_url_run :
  map (fun rq => (method rq, url rq, payload rq))
    (sent (snd (video_upload_from_url env0 no_numbers serving tag_encrypt tag_decrypt
                  url_upload_req valid_store)))
  = [ (GET, JStr "https://media.example.test/clip.mp4", NoBody);
      (POST, JStr "https://open.tiktokapis.com/v2/post/publish/inbox/video/init/",
       Json (JObj [("source_info",
               JObj [ ("source", JStr "FILE_UPLOAD");
                      ("video_size", JNum 11);
                      ("chunk_size", JNum 11);
                      ("total_chunk_count", JNum 1) ])]));
      (PUT, JStr "https://upload.test/p.1", Raw "video bytes") ].
Proof. vm_compute. reflexivity. Qed.

Lemma generateRandomString_length_witness :
  (forall n, (0 <= cycle_source n)%Q /\ (cycle_source n < 1)%Q) /\
  exists s,
    generateRandomString cycle_source 5 fresh = (Ok s, drawn 5 fresh) /\
    String.length s = 5%nat.
Proof.
  split; [exact cycle_source_range|].
  destruct (generateRandomString_length cycle_source cycle_source_range 5 fresh)
    as (s & H1 & H2 & _).
  exists s. split; assumption.
Defined.

Lemma auth_callback_without_expires_in_witness :
  truthy (obj_get (query callback_req) "code") = true /\
  exists w',
    auth_callback env0 no_numbers granting_without_lifetime tag_encrypt callback_req
      pending_flow = (Ok (send 200 login_successful_page), w') /\
    fst (loadTokens env0 tag_decrypt w') = Ok (record_without_expiry "A" "R").
Proof.
  split; [reflexivity|].
  destruct (auth_callback_without_expires_in env0 no_numbers granting_without_lifetime
              tag_encrypt tag_decrypt tag_decrypt_encrypt pending_flow callback_req
              200 [ ("access_token", JStr "A"); ("refresh_token", JStr "R") ] 150 "A" "R"
              eq_refl eq_refl eq_refl eq_refl eq_refl ltac:(discriminate) eq_refl eq_refl)
    as (w' & H1 & H2 & _).
  exists w'. split; assumption.
Defined.

